(** * disgord: rate-limit bucket, header normaliser and HTTP dispatcher

    A shallow embedding of
      - [httd/ratelimit/bucket.go]   (bucket, Acquire, RegretAcquire),
      - the header normaliser        (HeaderToTime, CorrectDiscordHeader),
      - the rate-limit manager       (Bucket, UpdateBucket),
      - the httd client              (NewClient, Client.Do),
    followed by the properties proved about them.

    Conventions.
      - A Go [int64] / [time.Duration] is a [Z] kept in the signed 64-bit
        range by [wrap64]; a Go [uint] is a [Z] kept in the unsigned 64-bit
        range by [wrapU] (a 64-bit platform).
      - A [time.Time] is a record [Time]: its instant (nanoseconds since the
        Unix epoch, an unbounded [Z]), whether it carries a monotonic clock
        reading, and its location. There is one clock: the wall clock is
        never stepped, so wall and monotonic readings advance together, the
        monotonic reading of a value is fixed by its instant, and [After],
        [Before], [Sub] and [Equal] are those of the instants. Go's [==] on
        two times compares the representations, so it also tells apart one
        instant held with and without a monotonic reading, or in two
        locations.
      - Where the code reads nothing but the instant of a time (the date
        header, the clock readings of the normaliser and of [UpdateBucket]),
        the time is given by its instant. [time.Now()] at an instant is
        [time_Now].
      - A pointer receiver that is mutated becomes state passing: an
        operation takes the bucket (or the pair global bucket / local bucket)
        and returns the new one next to its results. *)

From Stdlib Require Import ZArith Lia Bool List Ascii String.
From Stdlib.Strings Require Import Byte.
From Stdlib Require Import Decimal DecimalString DecimalFacts DecimalPos DecimalZ.
From stdpp Require Import base option gmap strings.

Local Open Scope string_scope.
Local Open Scope Z_scope.

(* ===================================================================== *)
(** ** Machine integers *)
(* ===================================================================== *)

Definition two64 : Z := 2 ^ 64.
Definition maxInt64 : Z := 2 ^ 63 - 1.
Definition minInt64 : Z := - 2 ^ 63.
Definition maxUint : Z := 2 ^ 64 - 1.

(** Conversion to [int64], and the result of an [int64] operation computed
    in [Z]: two's complement wrap-around. *)
Definition wrap64 (z : Z) : Z := (z + 2 ^ 63) mod two64 - 2 ^ 63.

(** Conversion to [uint], and the result of a [uint] operation. *)
Definition wrapU (z : Z) : Z := z mod two64.

Definition is_int64 (z : Z) : Prop := minInt64 <= z <= maxInt64.
Definition is_uint (z : Z) : Prop := 0 <= z <= maxUint.

(* ===================================================================== *)
(** ** package time *)
(* ===================================================================== *)

Definition time_Millisecond : Z := 1000000.
Definition time_Second : Z := 1000000000.
Definition time_Hour : Z := 3600 * time_Second.

(** [*time.Location] as far as [==] can tell: nil (UTC), [time.Local], or
    another location by its address. *)
Inductive Location : Type :=
| UTC
| Local
| OtherLocation (address : nat).

(** A [time.Time]. The value carries a monotonic reading only while its
    wall-clock seconds fit the 33 bits Go packs them in (years 1885 to
    2157). With one clock the reading itself is fixed by the instant, so
    whether there is one is all that [==] can tell beyond the instant and
    the location. *)
Record Time : Type := mkTime {
  instant :> Z;
  hasMonotonic : bool;
  location : Location
}.

(** [t == u] on two [time.Time]: equality of the representations. *)
#[global] Instance Location_eq_dec : EqDecision Location.
Proof. solve_decision. Defined.

#[global] Instance Time_eq_dec : EqDecision Time.
Proof. solve_decision. Defined.

(** Do the wall-clock seconds of an instant fit the packed field (seconds
    since January 1, 1885, in 33 bits)? *)
Definition wallFits (i : Z) : bool :=
  let sec := i / time_Second + 2682288000 in
  (0 <=? sec) && (sec <? 2 ^ 33).

(** [time.Now()] when the clock is at instant [i]. *)
Definition time_Now (i : Z) : Time := mkTime i (wallFits i) Local.

(** The zero [time.Time]: January 1, year 1, 00:00:00 UTC. *)
Definition time_zero : Time := mkTime (-62135596800 * time_Second) false UTC.

(** [t.Add(d)]: the monotonic reading is dropped when the wall-clock seconds
    no longer fit. (With one clock the monotonic reading is the instant
    counted from the start of the process, and cannot overflow while the
    wall-clock seconds fit.) *)
Definition Time_Add (t : Time) (d : Z) : Time :=
  mkTime (t + d) (hasMonotonic t && wallFits (t + d)) (location t).

(** [t.Sub(u)], on the instants: the difference, saturated to the range of
    a Duration. *)
Definition Time_Sub (t u : Z) : Z :=
  if (minInt64 <=? t - u) && (t - u <=? maxInt64) then t - u
  else if t <? u then minInt64 else maxInt64.

(** [t.After(u)], [t.Before(u)], [t.Equal(u)], on the instants. *)
Definition Time_After (t u : Z) : bool := u <? t.
Definition Time_Before (t u : Z) : bool := t <? u.
Definition Time_Equal (t u : Z) : bool := t =? u.

(** [time.Unix(0, nsec)] for an [int64] [nsec]: a local time without a
    monotonic reading. *)
Definition time_Unix0 (nsec : Z) : Time := mkTime nsec false Local.

(** [t.UnixNano()], on the instant: an [int64]. *)
Definition Time_UnixNano (t : Z) : Z := wrap64 t.

(** [d.Nanoseconds()] *)
Definition Duration_Nanoseconds (d : Z) : Z := d.

(** [time.Duration(n) * time.Millisecond] for an [int64] n. *)
Definition millis (n : Z) : Z := wrap64 (n * time_Millisecond).

(* ===================================================================== *)
(** ** package strconv: decimal integers *)
(* ===================================================================== *)

(** [strconv.FormatInt(z, 10)] (and [strconv.Itoa]). *)
Definition FormatInt (z : Z) : string := NilZero.string_of_int (Z.to_int z).

(** [strconv.ParseInt(s, 10, 64)]: an optional sign, then one or more decimal
    digits; [None] stands for any error (syntax or range). *)
Definition ParseInt (s : string) : option Z :=
  match s with
  | EmptyString => None
  | String c rest =>
      let neg := Ascii.eqb c "-" in
      let digits := if Ascii.eqb c "+" || neg then rest else s in
      match NilZero.uint_of_string digits with
      | None => None
      | Some d =>
          let un := Z.of_uint d in
          if neg then (if un <=? 2 ^ 63 then Some (- un) else None)
          else (if un <? 2 ^ 63 then Some un else None)
      end
  end.

(** The double quote, for the texts that hold one. *)
Definition quote : string := String (ascii_of_nat 34) EmptyString.

(* ===================================================================== *)
(** ** net/http headers *)
(* ===================================================================== *)

(** [textproto.CanonicalMIMEHeaderKey] on a key made of letters, digits and
    hyphens: the first letter and every letter after a hyphen in upper case,
    the others in lower case. *)
Definition to_upper (c : ascii) : ascii :=
  let n := nat_of_ascii c in
  if (Nat.leb 97 n && Nat.leb n 122)%bool then ascii_of_nat (n - 32) else c.

Definition to_lower (c : ascii) : ascii :=
  let n := nat_of_ascii c in
  if (Nat.leb 65 n && Nat.leb n 90)%bool then ascii_of_nat (n + 32) else c.

Fixpoint canonical (upper : bool) (s : string) : string :=
  match s with
  | EmptyString => EmptyString
  | String c rest =>
      String (if upper then to_upper c else to_lower c)
             (canonical (Ascii.eqb c "-") rest)
  end.

Definition CanonicalMIMEHeaderKey (s : string) : string := canonical true s.

(** [http.Header] is [map[string][]string]. *)
Abbreviation Header := (gmap string (list string)).

(** [h.Get(key)]: the first value under the canonical key, the empty string
    without one. *)
Definition Header_Get (h : Header) (key : string) : string :=
  match h !! CanonicalMIMEHeaderKey key with
  | Some (v :: _) => v
  | _ => ""
  end.

(** [h.Set(key, value)]: the canonical key now has this one value. *)
Definition Header_Set (h : Header) (key value : string) : Header :=
  <[CanonicalMIMEHeaderKey key := [value]]> h.

Definition XRateLimitPrecision : string := "X-RateLimit-Precision".
Definition XRateLimitBucket : string := "X-RateLimit-Bucket".
Definition XRateLimitLimit : string := "X-RateLimit-Limit".
Definition XRateLimitRemaining : string := "X-RateLimit-Remaining".
Definition XRateLimitReset : string := "X-RateLimit-Reset".
Definition XRateLimitResetAfter : string := "X-RateLimit-Reset-After".
Definition XRateLimitGlobal : string := "X-RateLimit-Global".
Definition RateLimitRetryAfter : string := "Retry-After".
Definition ContentEncoding : string := "Content-Encoding".
Definition ContentType : string := "Content-Type".
Definition ContentTypeJSON : string := "application/json".
Definition GZIPCompression : string := "gzip".

(* ===================================================================== *)
(** ** httd/ratelimit/bucket.go *)
(* ===================================================================== *)

Record bucketID : Type := mkBucketID {
  id_global : bool;
  id_reset : Time
}.

Record bucket : Type := mkBucket {
  key : string;
  localKeys : list string;
  invalid : bool;
  lastUpdated : Time;
  limit : Z;
  remaining : Z;
  reset : Time;
  longestTimeout : Z;
  shortestTimeout : Z;
  active : bool
}.

Definition set_remaining (n : Z) (b : bucket) : bucket :=
  mkBucket (key b) (localKeys b) (invalid b) (lastUpdated b) (limit b) n
           (reset b) (longestTimeout b) (shortestTimeout b) (active b).

Definition set_reset (t : Time) (b : bucket) : bucket :=
  mkBucket (key b) (localKeys b) (invalid b) (lastUpdated b) (limit b)
           (remaining b) t (longestTimeout b) (shortestTimeout b) (active b).

Definition set_lastUpdated (t : Time) (b : bucket) : bucket :=
  mkBucket (key b) (localKeys b) (invalid b) t (limit b)
           (remaining b) (reset b) (longestTimeout b) (shortestTimeout b) (active b).

Definition set_longestTimeout (n : Z) (b : bucket) : bucket :=
  mkBucket (key b) (localKeys b) (invalid b) (lastUpdated b) (limit b)
           (remaining b) (reset b) n (shortestTimeout b) (active b).

Definition set_limit (n : Z) (b : bucket) : bucket :=
  mkBucket (key b) (localKeys b) (invalid b) (lastUpdated b) n
           (remaining b) (reset b) (longestTimeout b) (shortestTimeout b) (active b).

Definition set_key (k : string) (b : bucket) : bucket :=
  mkBucket k (localKeys b) (invalid b) (lastUpdated b) (limit b)
           (remaining b) (reset b) (longestTimeout b) (shortestTimeout b) (active b).

Definition set_localKeys (ks : list string) (b : bucket) : bucket :=
  mkBucket (key b) ks (invalid b) (lastUpdated b) (limit b)
           (remaining b) (reset b) (longestTimeout b) (shortestTimeout b) (active b).

Definition set_active (a : bool) (b : bucket) : bucket :=
  mkBucket (key b) (localKeys b) (invalid b) (lastUpdated b) (limit b)
           (remaining b) (reset b) (longestTimeout b) (shortestTimeout b) a.

(** [newBucket(global)], created when the clock reads [now]. The [global]
    pointer is the [gbl] component of the [store] the bucket lives in. *)
Definition newBucket (now : Z) : bucket :=
  mkBucket "" [] false time_zero 1 1 (Time_Add (time_Now now) (1 * time_Hour)) 0 0 false.

(** The errors of the two packages. *)
Inductive error : Type :=
| ErrRateLimited
| ErrOther (msg : string)
| ErrREST (httpCode : Z) (code : Z) (msg : string).

(** [b.regretAcquire()] and [b.inc()] *)
Definition regretAcquire (b : bucket) : bucket :=
  set_remaining (wrapU (remaining b + 1)) b.

(** [b.dec()] and the statement [b.remaining--] *)
Definition dec (b : bucket) : bucket :=
  set_remaining (wrapU (remaining b - 1)) b.

(** [b.update(now)]: the refresh step. *)
Definition update (now : Time) (b : bucket) : bucket :=
  if longestTimeout b =? 0 then b
  else
    let b1 :=
      if negb (Time_After (reset b) now)
      then set_reset (Time_Add now (millis (wrap64 (longestTimeout b))))
                     (set_remaining 1 b)
      else b in
    set_lastUpdated now b1.

(** [b.limited(now)] *)
Definition limited (now : Time) (b : bucket) : bool :=
  Time_After (reset b) now && (remaining b =? 0).

(** The results of [acquire]. *)
Record acquired : Type := mkAcquired {
  delay : Z;
  rateLimited : bool;
  err : option error
}.

(** [b.acquire(now, within)] *)
Definition acquire (now : Time) (within : Z) (b : bucket) : acquired * bucket :=
  let b := update now b in
  if limited now b then
    if (0 <? within) && Time_Before (reset b) (Time_Add now within) then
      let b' := dec b in
      (mkAcquired (Time_Sub (Time_Add now within) (reset b')) true None, b')
    else (mkAcquired 0 true (Some ErrRateLimited), b)
  else (mkAcquired 0 false None, dec b).

(** A local bucket together with the global bucket its [global] field points
    to. Every local bucket of one manager shares the same [gbl]. *)
Record store : Type := mkStore {
  gbl : bucket;
  loc : bucket
}.

(** [b.Acquire(now, within)] on the local bucket of the store. *)
Definition Acquire (now : Time) (within : Z) (st : store) : acquired * bucketID * store :=
  if active (gbl st) then
    let '(r, g) := acquire now within (gbl st) in
    (r, mkBucketID true (reset g), mkStore g (loc st))
  else
    let '(r, b) := acquire now within (loc st) in
    (r, mkBucketID false (reset b), mkStore (gbl st) b).

(** [b.RegretAcquire(id)] on the local bucket of the store;
    [id.reset == bu.reset] compares the two [time.Time] values field by
    field. *)
Definition RegretAcquire (id : bucketID) (st : store) : store :=
  if id_global id then
    if decide (id_reset id = reset (gbl st))
    then mkStore (regretAcquire (gbl st)) (loc st) else st
  else
    if decide (id_reset id = reset (loc st))
    then mkStore (gbl st) (regretAcquire (loc st)) else st.

(* ===================================================================== *)
(** ** Results of fallible calls *)
(* ===================================================================== *)

(** A Go call that returns [(value, error)], or panics (nil dereference,
    [panic("...")]). *)
Inductive result (A : Type) : Type :=
| Ok (a : A)
| Err (e : error)
| Panic.

Arguments Ok {A} a.
Arguments Err {A} e.
Arguments Panic {A}.

(** What [json.Unmarshal(body, &rateLimitBodyInfo)] leaves in the pointer
    [rateLimitBodyInfo], which starts out nil. *)
Record RateLimitResponseStructure : Type := mkRateLimitResponse {
  Message : string;
  RetryAfter : Z;
  Global : bool
}.

Inductive unmarshalled : Type :=
| UnmarshalError                                  (* err != nil *)
| UnmarshalNull                                   (* JSON null: the pointer stays nil *)
| Unmarshalled (v : RateLimitResponseStructure).

(** The calls into Go's standard library whose code is not modelled, and the
    one bucket-group operation that is not among the sources. Everything
    below is stated for every implementation of this interface. *)
Class Externals : Type := {
  (** [time.Parse(time.RFC1123, s)]; [None] on an error. *)
  time_Parse_RFC1123 : string -> option Z;
  (** [int64(f * 1000)] for [f, err := strconv.ParseFloat(s, 64)]; [None]
      when [err != nil]. The floating-point arithmetic stays inside. *)
  ParseFloat_millis : string -> option Z;
  ParseFloat_millis_int64 :
    forall s z, ParseFloat_millis s = Some z -> is_int64 z;
  (** [json.Unmarshal] into a [*RateLimitResponseStructure]. *)
  json_Unmarshal : list byte -> unmarshalled;
  json_Unmarshal_int64 :
    forall body v, json_Unmarshal body = Unmarshalled v -> is_int64 (RetryAfter v);
  (** The values a request body of dynamic type may hold, and [json.Marshal]. *)
  GoValue : Type;
  json_Marshal : GoValue -> option (list byte);
  (** [http.NewRequest(method, url, body)] returns no error. *)
  http_NewRequest_ok : string -> string -> bool;
  (** Reading a gzip stream to its end; [None] on an error. *)
  gzip_decode : list byte -> option (list byte);
  (** [httd.Unmarshal(body, err)] into an [ErrREST]: code and message. *)
  Unmarshal_ErrREST : list byte -> option (Z * string);
  (** [bucketGroup.consolidate(majorID, b)] on the routes of one group and
      the buckets of the manager; [b] is given by its address. *)
  group_consolidate :
    gmap (Z * string) nat -> gmap nat bucket -> Z -> nat ->
    gmap (Z * string) nat * gmap nat bucket
}.

(* ===================================================================== *)
(** ** The header normaliser *)
(* ===================================================================== *)

Section Normaliser.
Context `{Ext : Externals}.

(** [HeaderToTime(header)]; [None] on an error. *)
Definition HeaderToTime (header : Header) : option Z :=
  let dateStr := Header_Get header "date" in
  if String.eqb dateStr "" then None
  else time_Parse_RFC1123 dateStr.

(** Lines 54-60: [X-RateLimit-Reset-After] from seconds to milliseconds. *)
Definition correctResetAfter (header : Header) : result Header :=
  let retry := Header_Get header XRateLimitResetAfter in
  if negb (String.eqb retry "") then
    match ParseFloat_millis retry with
    | None => Err (ErrOther "strconv.ParseFloat")
    | Some ms => Ok (Header_Set header XRateLimitResetAfter (FormatInt ms))
    end
  else Ok header.

Definition StatusTooManyRequests : Z := 429.
Definition StatusNotModified : Z := 304.

(** Lines 62-73: the body of a 429 overrides the header. *)
Definition correctFromBody (statusCode : Z) (body : list byte)
    (header : Header) : result Header :=
  if statusCode =? StatusTooManyRequests then
    match json_Unmarshal body with
    | UnmarshalError => Err (ErrOther "json.Unmarshal")
    | UnmarshalNull => Panic
    | Unmarshalled info =>
        let header :=
          if Global info then Header_Set header XRateLimitGlobal "true"
          else header in
        let header :=
          if 0 <? RetryAfter info
          then Header_Set header XRateLimitResetAfter (FormatInt (RetryAfter info))
          else header in
        Ok header
    end
  else Ok header.

(** Lines 75-77: [Retry-After] overrides [X-RateLimit-Reset-After]. *)
Definition correctRetryAfter (header : Header) : Header :=
  let retryAfter := Header_Get header RateLimitRetryAfter in
  if negb (String.eqb retryAfter "")
  then Header_Set header XRateLimitResetAfter retryAfter
  else header.

(** Lines 79-85: [X-RateLimit-Reset] from seconds to milliseconds. *)
Definition correctReset (header : Header) : result Header :=
  let reset := Header_Get header XRateLimitReset in
  if negb (String.eqb reset "") then
    match ParseFloat_millis reset with
    | None => Err (ErrOther "strconv.ParseFloat")
    | Some ms => Ok (Header_Set header XRateLimitReset (FormatInt ms))
    end
  else Ok header.

(** Lines 94-95: the epoch milliseconds of [timestamp] plus [delay] ms;
    [reset] is the instant of [timestamp.Add(...)]. *)
Definition resetEpochMs (timestamp delay : Z) : Z :=
  let reset := timestamp + millis delay in
  Z.quot (Time_UnixNano reset) time_Millisecond.

(** Lines 87-98: a missing [X-RateLimit-Reset] is made from the date and
    [X-RateLimit-Reset-After]. *)
Definition synthesiseReset (timestamp : Z) (header : Header) : result Header :=
  if String.eqb (Header_Get header XRateLimitReset) "" then
    let retry := Header_Get header XRateLimitResetAfter in
    if negb (String.eqb retry "") then
      match ParseInt retry with
      | None => Err (ErrOther "strconv.ParseInt")
      | Some delay =>
          Ok (Header_Set header XRateLimitReset
                (FormatInt (resetEpochMs timestamp delay)))
      end
    else Ok header
  else Ok header.

Definition result_bind {A B : Type} (r : result A) (f : A -> result B) : result B :=
  match r with
  | Ok a => f a
  | Err e => Err e
  | Panic => Panic
  end.

(** [CorrectDiscordHeader(statusCode, header, body)]; [clock] is what
    [time.Now()] answers when the date header cannot be used. *)
Definition CorrectDiscordHeader (clock : Z) (statusCode : Z) (header : Header)
    (body : list byte) : result Header :=
  let timestamp :=
    match HeaderToTime header with
    | Some t => t
    | None => clock
    end in
  result_bind (correctResetAfter header) (fun header =>
  result_bind (correctFromBody statusCode body header) (fun header =>
  let header := correctRetryAfter header in
  result_bind (correctReset header) (fun header =>
  synthesiseReset timestamp header))).

End Normaliser.

(* ===================================================================== *)
(** ** The rate-limit manager *)
(* ===================================================================== *)

(** [GroupID]; [GroupUnknown] stands for every value that is none of the
    four constants. *)
Inductive GroupID : Type :=
| GroupChannels
| GroupGuilds
| GroupWebhooks
| GroupOthers
| GroupUnknown.

(** Modelled from the spec: [bucketGroup] (its file is not among the
    sources) is "a mapping from majorID -> (localKey -> Bucket)"; the
    buckets are pointers, here addresses into [heap]. *)
Abbreviation bucketGroup := (gmap (Z * string) nat).

Record Manager : Type := mkManager {
  channels : bucketGroup;
  guilds : bucketGroup;
  webhooks : bucketGroup;
  others : bucketGroup;
  global : bucket;
  (** The local buckets the groups point to, and the next free address. *)
  heap : gmap nat bucket;
  next : nat
}.

(** [NewManager()] when the clock reads [now]. *)
Definition NewManager (now : Z) : Manager :=
  let global := set_active false (newBucket now) in
  mkManager ∅ ∅ ∅ ∅ global ∅ 0%nat.

(** [r.group(id)]; [None] is the panic of the default case. *)
Definition Manager_group (r : Manager) (id : GroupID) : option bucketGroup :=
  match id with
  | GroupChannels => Some (channels r)
  | GroupGuilds => Some (guilds r)
  | GroupWebhooks => Some (webhooks r)
  | GroupOthers => Some (others r)
  | GroupUnknown => None
  end.

Definition set_group (id : GroupID) (g : bucketGroup) (r : Manager) : Manager :=
  match id with
  | GroupChannels => mkManager g (guilds r) (webhooks r) (others r) (global r) (heap r) (next r)
  | GroupGuilds => mkManager (channels r) g (webhooks r) (others r) (global r) (heap r) (next r)
  | GroupWebhooks => mkManager (channels r) (guilds r) g (others r) (global r) (heap r) (next r)
  | GroupOthers => mkManager (channels r) (guilds r) (webhooks r) g (global r) (heap r) (next r)
  | GroupUnknown => r
  end.

Definition set_heap (h : gmap nat bucket) (n : nat) (r : Manager) : Manager :=
  mkManager (channels r) (guilds r) (webhooks r) (others r) (global r) h n.

(** The local bucket at address [a] with the global bucket, as the bucket
    methods see them, and the way back. *)
Definition store_at (r : Manager) (a : nat) : option store :=
  match heap r !! a with
  | Some b => Some (mkStore (global r) b)
  | None => None
  end.

Definition put_store (a : nat) (st : store) (r : Manager) : Manager :=
  mkManager (channels r) (guilds r) (webhooks r) (others r) (gbl st)
            (<[a := loc st]> (heap r)) (next r).

(** [r.Bucket(groupID, majorID, localBucketKey)]; [now] is the clock read by
    [newBucket]. The bucket is returned by its address. *)
Definition Manager_Bucket (now : Z) (r : Manager) (groupID : GroupID)
    (majorID : Z) (localBucketKey : string) : result (nat * bool * Manager) :=
  match Manager_group r groupID with
  | None => Panic
  | Some group =>
      match group !! (majorID, localBucketKey) with
      | Some b => Ok (b, true, r)
      | None =>
          let b := set_localKeys [localBucketKey] (newBucket now) in
          let a := next r in
          Ok (a, false,
              set_group groupID (<[(majorID, localBucketKey) := a]> group)
                (set_heap (<[a := b]> (heap r)) (S a) r))
      end
  end.

Section ManagerUpdate.
Context `{Ext : Externals}.

(** [r.Consolidate(groupID, majorID, b)] *)
Definition Manager_Consolidate (r : Manager) (groupID : GroupID) (majorID : Z)
    (b : nat) : result Manager :=
  match Manager_group r groupID with
  | None => Panic
  | Some group =>
      let '(group, h) := group_consolidate group (heap r) majorID b in
      Ok (set_group groupID group (set_heap h (next r) r))
  end.

(** The body of [UpdateBucket] under [bu.Lock()]: every [return] keeps what
    was written before it. [old] is [b.reset], [diff] the clock drift. *)
Inductive flow : Type :=
| Continue (bu : bucket)
| Return (bu : bucket).

Definition and_then (f : flow) (k : bucket -> flow) : flow :=
  match f with
  | Continue bu => k bu
  | Return bu => Return bu
  end.

Definition flow_end (f : flow) : bucket :=
  match f with
  | Continue bu => bu
  | Return bu => bu
  end.

(** Lines 92-105 *)
Definition updateReset (diff old : Z) (header : Header) (bu : bucket) : flow :=
  let resetStr := Header_Get header XRateLimitReset in
  if negb (String.eqb resetStr "") then
    match ParseInt resetStr with
    | None => Return bu
    | Some epoch =>
        let bu := set_reset (time_Unix0 (wrap64 (epoch + Duration_Nanoseconds diff))) bu in
        let oldNewDiffMs :=
          wrapU (Z.quot (Duration_Nanoseconds (Time_Sub (reset bu) old)) time_Millisecond) in
        if negb (Time_Equal (reset bu) old) && (longestTimeout bu <? oldNewDiffMs)
        then Continue (set_longestTimeout oldNewDiffMs bu)
        else Continue bu
    end
  else Continue bu.

(** Lines 107-114 *)
Definition updateRemaining (header : Header) (bu : bucket) : flow :=
  let remainingStr := Header_Get header XRateLimitRemaining in
  if negb (String.eqb remainingStr "") then
    match ParseInt remainingStr with
    | None => Return bu
    | Some remaining => Continue (set_remaining (wrapU remaining) bu)
    end
  else Continue bu.

(** Lines 116-123 *)
Definition updateLimit (header : Header) (bu : bucket) : flow :=
  let limitStr := Header_Get header XRateLimitLimit in
  if negb (String.eqb limitStr "") then
    match ParseInt limitStr with
    | None => Return bu
    | Some limit => Continue (set_limit (wrapU limit) bu)
    end
  else Continue bu.

(** Lines 125-127 *)
Definition updateKey (header : Header) (bu : bucket) : flow :=
  let key := Header_Get header XRateLimitBucket in
  if negb (String.eqb key "") then Continue (set_key key bu) else Continue bu.

(** [UpdateBucket] after the lookup, on the local bucket [b] and the global
    bucket. [clock1] answers the [time.Now()] that replaces an unusable date
    header, [clock2] the [time.Now()] that is [localTime]. *)
Definition UpdateBucket_store (clock1 clock2 : Z) (header : Header)
    (st : store) : store :=
  let discordTime :=
    match HeaderToTime header with
    | Some t => t
    | None => clock1
    end in
  let localTime := clock2 in
  let diff := Time_Sub localTime discordTime in
  let to_global := String.eqb (Header_Get header XRateLimitGlobal) "true" in
  let bu := if to_global then gbl st else loc st in
  let old := reset (loc st) in
  let bu :=
    flow_end
      (and_then (updateReset diff old header bu) (fun bu =>
       and_then (updateRemaining header bu) (fun bu =>
       and_then (updateLimit header bu) (fun bu =>
       updateKey header bu)))) in
  if to_global then mkStore bu (loc st) else mkStore (gbl st) bu.

(** [r.UpdateBucket(groupID, majorID, localBucketKey, header)]; [now] is the
    clock read by [newBucket] when the lookup misses. *)
Definition UpdateBucket (now clock1 clock2 : Z) (r : Manager) (groupID : GroupID)
    (majorID : Z) (localBucketKey : string) (header : Header) : result Manager :=
  match Manager_Bucket now r groupID majorID localBucketKey with
  | Ok (b, _, r) =>
      match store_at r b with
      | Some st => Ok (put_store b (UpdateBucket_store clock1 clock2 header st) r)
      | None => Panic
      end
  | Err e => Err e
  | Panic => Panic
  end.

End ManagerUpdate.

(* ===================================================================== *)
(** ** The httd client *)
(* ===================================================================== *)

Definition BaseURL : string := "https://discordapp.com/api".

(** [fmt.Sprintf(AuthorizationFormat, token)] *)
Definition AuthorizationFormat (token : string) : string :=
  String.append "Bot " token.

(** [fmt.Sprintf(UserAgentFormat, url, version, extra)] *)
Definition UserAgentFormat (url version extra : string) : string :=
  String.append "DiscordBot ("
    (String.append url (String.append ", "
      (String.append version (String.append ") " extra)))).

(** [*http.Client]: the one field the package reads. *)
Record http_Client : Type := mkHTTPClient {
  Timeout : Z
}.

Record Config : Type := mkConfig {
  APIVersion : Z;
  BotToken : string;
  HTTPClient : option http_Client;          (* [None] is nil *)
  CancelRequestWhenRateLimited : bool;
  UserAgentVersion : string;
  UserAgentSourceURL : string;
  UserAgentExtra : string
}.

Record Client : Type := mkClient {
  url : string;
  reqHeader : gmap string (list string);
  httpClient : http_Client;
  cancelRequestWhenRateLimited : bool;
  rateLimitMngr : Manager
}.

(** [SupportsDiscordAPIVersion(version)]: the loop over [supports]. *)
Definition supports : list Z := [6].

Fixpoint SupportsDiscordAPIVersion_loop (supports : list Z) (version : Z) : bool :=
  match supports with
  | [] => false
  | supportedVersion :: rest =>
      if supportedVersion =? version then true
      else SupportsDiscordAPIVersion_loop rest version
  end.

Definition SupportsDiscordAPIVersion (version : Z) : bool :=
  SupportsDiscordAPIVersion_loop supports version.

Definition set_HTTPClient (h : http_Client) (conf : Config) : Config :=
  mkConfig (APIVersion conf) (BotToken conf) (Some h)
           (CancelRequestWhenRateLimited conf) (UserAgentVersion conf)
           (UserAgentSourceURL conf) (UserAgentExtra conf).

(** [NewClient(conf)]: the client or the error, and [*conf] as the call
    leaves it. [now] is the clock read by [NewManager]. A struct literal
    that names no value for a field holds the zero value there. *)
Definition NewClient (now : Z) (conf : Config) : result Client * Config :=
  if negb (SupportsDiscordAPIVersion (APIVersion conf)) then
    (Err (ErrOther (String.append "Discord API version "
                      (String.append (FormatInt (APIVersion conf)) " is not supported"))),
     conf)
  else if String.eqb (BotToken conf) "" then
    (Err (ErrOther "no Discord Bot Token was provided"), conf)
  else
    let '(conf, client) :=
      match HTTPClient conf with
      | None =>
          let h := mkHTTPClient (time_Second * 10) in
          (set_HTTPClient h conf, h)
      | Some h => (conf, h)
      end in
    if String.eqb (UserAgentSourceURL conf) "" || String.eqb (UserAgentVersion conf) "" then
      (Err (ErrOther "both a source(url) and a version must be present for sending requests to the Discord REST API"),
       conf)
    else
      let authorization := AuthorizationFormat (BotToken conf) in
      let userAgent :=
        UserAgentFormat (UserAgentSourceURL conf) (UserAgentVersion conf)
                        (UserAgentExtra conf) in
      let header : gmap string (list string) :=
        <[XRateLimitPrecision := ["millisecond"]]>
        (<["Authorization" := [authorization]]>
        (<["User-Agent" := [userAgent]]>
        (<["Accept-Encoding" := ["gzip"]]> ∅))) in
      (Ok (mkClient (String.append BaseURL
                       (String.append "/v" (FormatInt (APIVersion conf))))
                    header client false (NewManager now)),
       conf).

Section Dispatcher.
Context `{Ext : Externals}.

(** [Request.Body interface{}] by its dynamic type. *)
Inductive RequestBody : Type :=
| BodyNil
| BodyReader (content : list byte)       (* an [io.Reader] *)
| BodyValue (v : GoValue).               (* anything else *)

Record Request : Type := mkRequest {
  RateLimitGroup : GroupID;
  MajorRateLimitID : Z;
  BucketKey : string;
  Method : string;
  Ratelimiter : string;
  Endpoint : string;
  Body : RequestBody;
  Request_ContentType : string
}.

(** [*http.Response]: [Response_Body] is what [ioutil.ReadAll(resp.Body)]
    yields, [None] on an error. *)
Record Response : Type := mkResponse {
  StatusCode : Z;
  Response_Header : gmap string (list string);
  Response_Body : option (list byte)
}.

(** What the world outside answers during one [Do]. *)
Record World : Type := mkWorld {
  now_newBucket : Z;            (* [time.Now()] in [newBucket], line 249 *)
  now_Do : Z;                   (* [time.Now()], line 251 *)
  transport : option Response;  (* [c.httpClient.Do(req)]; [None] is an error *)
  now_Correct : Z;              (* [time.Now()] in [CorrectDiscordHeader] *)
  now_Update_newBucket : Z;     (* [time.Now()] in [UpdateBucket]'s lookup *)
  now_Update1 : Z;              (* [time.Now()] for an unusable date header *)
  now_Update2 : Z               (* [localTime] *)
}.

(** What one [Do] does that can be seen from outside, oldest first. *)
Inductive event : Type :=
| EvAcquire (now within : Z)
| EvSleep (wait : Z)
| EvRegretAcquire (id : bucketID)
| EvSend (method url : string) (body : option (list byte))
| EvUpdateBucket (header : gmap string (list string))
| EvConsolidate.

(** [c.decodeResponseBody(resp)] *)
Definition decodeResponseBody (resp : Response) : result (list byte) :=
  match Response_Body resp with
  | None => Err (ErrOther "ioutil.ReadAll")
  | Some buffer =>
      if String.eqb (Header_Get (Response_Header resp) ContentEncoding) GZIPCompression
      then match gzip_decode buffer with
           | None => Err (ErrOther "gzip")
           | Some body => Ok body
           end
      else Ok buffer
  end.

(** [convertStructToIOReader(v)] *)
Definition convertStructToIOReader (v : GoValue) : result (list byte) :=
  match json_Marshal v with
  | None => Err (ErrOther "json.Marshal")
  | Some jsonParamsBytes => Ok jsonParamsBytes
  end.

(** Lines 262-279: the request body. *)
Definition prepareBody (r : Request) : result (option (list byte)) :=
  match Body r with
  | BodyNil => Ok None
  | BodyReader b => Ok (Some b)
  | BodyValue v =>
      if negb (String.eqb (Request_ContentType r) ContentTypeJSON) then
        Err (ErrOther "unknown request body types and only be used in conjunction with httd.ContentTypeJSON")
      else
        match convertStructToIOReader v with
        | Ok reader => Ok (Some reader)
        | Err e => Err e
        | Panic => Panic
        end
  end.

(** Lines 310-330: the status code decides between the response and an
    [ErrREST]. *)
Definition classify (resp : Response) (header : gmap string (list string))
    (body : list byte) : result (Response * list byte) :=
  let noDiff := StatusCode resp =? StatusNotModified in
  let withinSuccessScope := (200 <=? StatusCode resp) && (StatusCode resp <? 300) in
  if negb (noDiff || withinSuccessScope) then
    match body with
    | [] => Err (ErrREST (StatusCode resp) 0 "")
    | _ :: _ =>
        match Unmarshal_ErrREST body with
        | Some (code, msg) => Err (ErrREST (StatusCode resp) code msg)
        | None => Err (ErrREST (StatusCode resp) 0 "")
        end
    end
  else Ok (mkResponse (StatusCode resp) header (Response_Body resp), body).

(** The outcome of one [Do]: what it returns, the client as it leaves it
    (its manager and its shared request header are mutated), and the trace. *)
Record Done : Type := mkDone {
  returned : result (Response * list byte);
  client_after : Client;
  trace : list event
}.

Definition set_manager (m : Manager) (c : Client) : Client :=
  mkClient (url c) (reqHeader c) (httpClient c) (cancelRequestWhenRateLimited c) m.

Definition set_reqHeader (h : gmap string (list string)) (c : Client) : Client :=
  mkClient (url c) h (httpClient c) (cancelRequestWhenRateLimited c) (rateLimitMngr c).

(** [bucket.RegretAcquire(bucketID)] on the bucket at address [b]. *)
Definition regret_at (b : nat) (id : bucketID) (m : Manager) : Manager :=
  match store_at m b with
  | Some st => put_store b (RegretAcquire id st) m
  | None => m
  end.

(** Lines 297-330, after a response has arrived. *)
Definition Do_response (w : World) (c : Client) (r : Request) (b : nat)
    (populated : bool) (resp : Response) (tr : list event) : Done :=
  let body :=
    match decodeResponseBody resp with
    | Ok body => body
    | _ => []
    end in
  match CorrectDiscordHeader (now_Correct w) (StatusCode resp) (Response_Header resp) body with
  | Err e => mkDone (Err e) c tr
  | Panic => mkDone Panic c tr
  | Ok header =>
      match UpdateBucket (now_Update_newBucket w) (now_Update1 w) (now_Update2 w)
              (rateLimitMngr c) (RateLimitGroup r) (MajorRateLimitID r) (BucketKey r) header with
      | Err e => mkDone (Err e) c tr
      | Panic => mkDone Panic c tr
      | Ok m =>
          let tr := (tr ++ [EvUpdateBucket header])%list in
          let c := set_manager m c in
          if negb populated then
            match Manager_Consolidate m (RateLimitGroup r) (MajorRateLimitID r) b with
            | Ok m => mkDone (classify resp header body) (set_manager m c) (tr ++ [EvConsolidate])%list
            | Err e => mkDone (Err e) c tr
            | Panic => mkDone Panic c tr
            end
          else mkDone (classify resp header body) c tr
      end
  end.

(** Lines 262-295, after a permit has been acquired and the delay slept. *)
Definition Do_send (w : World) (c : Client) (r : Request) (b : nat)
    (populated : bool) (id : bucketID) (tr : list event) : Done :=
  match prepareBody r with
  | Err e => mkDone (Err e) c tr
  | Panic => mkDone Panic c tr
  | Ok bodyReader =>
      if negb (http_NewRequest_ok (Method r) (String.append (url c) (Endpoint r))) then
        mkDone (Err (ErrOther "http.NewRequest"))
               (set_manager (regret_at b id (rateLimitMngr c)) c)
               (tr ++ [EvRegretAcquire id])%list
      else
        let c := set_reqHeader (Header_Set (reqHeader c) ContentType (Request_ContentType r)) c in
        let tr := (tr ++ [EvSend (Method r) (String.append (url c) (Endpoint r)) bodyReader])%list in
        match transport w with
        | None =>
            mkDone (Err (ErrOther "http.Client.Do"))
                   (set_manager (regret_at b id (rateLimitMngr c)) c)
                   (tr ++ [EvRegretAcquire id])%list
        | Some resp => Do_response w c r b populated resp tr
        end
  end.

(** Lines 252-255: the budget handed to [Acquire]. *)
Definition acceptableDelay (c : Client) (now : Z) : Z :=
  let acceptableDelay :=
    Time_Sub (Time_Add (time_Now now) (200 * time_Millisecond)) (time_Now now) in
  if negb (cancelRequestWhenRateLimited c) then Timeout (httpClient c)
  else acceptableDelay.

(** [c.Do(r)] *)
Definition Do (w : World) (c : Client) (r : Request) : Done :=
  match Manager_Bucket (now_newBucket w) (rateLimitMngr c)
          (RateLimitGroup r) (MajorRateLimitID r) (BucketKey r) with
  | Err e => mkDone (Err e) c []
  | Panic => mkDone Panic c []
  | Ok (bucket, populated, m) =>
      let c := set_manager m c in
      let now := now_Do w in
      let acceptableDelay := acceptableDelay c now in
      match store_at m bucket with
      | None => mkDone Panic c []
      | Some st =>
          let '(a, bucketID, st) := Acquire (time_Now now) acceptableDelay st in
          let c := set_manager (put_store bucket st m) c in
          let tr := [EvAcquire now acceptableDelay] in
          match err a with
          | Some e => mkDone (Err e) c tr
          | None => Do_send w c r bucket populated bucketID (tr ++ [EvSleep (delay a)])%list
          end
      end
  end.

End Dispatcher.

(* ===================================================================== *)
(** ** Vocabulary of the statements *)
(* ===================================================================== *)


(** The bucket [Acquire] works on: the global one while it is active. *)
Definition target (st : store) : bucket :=
  if active (gbl st) then gbl st else loc st.

(** The bucket a ticket points to, and the other one. *)
Definition ticket_bucket (id : bucketID) (st : store) : bucket :=
  if id_global id then gbl st else loc st.


(** A run of [acquire] calls on one bucket, with no header update between
    them: the results, oldest first, and the bucket at the end. *)
Fixpoint acquire_all (calls : list (Time * Z)) (b : bucket) : list acquired * bucket :=
  match calls with
  | [] => ([], b)
  | (now, within) :: rest =>
      let '(r, b) := acquire now within b in
      let '(rs, b) := acquire_all rest b in
      (r :: rs, b)
  end.

Definition is_send (e : event) : bool :=
  match e with
  | EvSend _ _ _ => true
  | _ => false
  end.

Definition is_regret (e : event) : bool :=
  match e with
  | EvRegretAcquire _ => true
  | _ => false
  end.

(** The [within] budgets handed to [Acquire] in a trace. *)
Fixpoint budgets (tr : list event) : list Z :=
  match tr with
  | [] => []
  | EvAcquire _ within :: rest => within :: budgets rest
  | _ :: rest => budgets rest
  end.

(** The client after a run of [Do] calls. *)
Fixpoint Do_all `{Ext : Externals} (calls : list (World * Request)) (c : Client) : Client :=
  match calls with
  | [] => c
  | (w, r) :: rest => Do_all rest (client_after (Do w c r))
  end.

(** The bucket a routing triple resolves to in a manager. *)
Definition routed (r : Manager) (groupID : GroupID) (majorID : Z)
    (localBucketKey : string) : option bucket :=
  match Manager_group r groupID with
  | Some group =>
      match group !! (majorID, localBucketKey) with
      | Some a => heap r !! a
      | None => None
      end
  | None => None
  end.

(** The value of a call that neither failed nor panicked. *)
Definition value_of {A : Type} (r : result A) : option A :=
  match r with
  | Ok a => Some a
  | _ => None
  end.

(** The settings of a client that [Do] reads and never writes. *)
Definition same_settings (c c' : Client) : Prop :=
  cancelRequestWhenRateLimited c' = cancelRequestWhenRateLimited c /\
  httpClient c' = httpClient c /\ url c' = url c.

(** The epoch milliseconds of an instant, as the normaliser computes them
    (line 95 of the normaliser). *)
Definition epochMs (t : Z) : Z := Z.quot (Time_UnixNano t) time_Millisecond.

(* ===================================================================== *)
(** ** One implementation of the interface, for concrete runs *)
(* ===================================================================== *)

(** It answers as Go does on the inputs the concrete runs below consult:
    one date, decimal integer literals as floats (for a literal [n] with
    [|n| * 1000 < 2^53] the conversion to [float64] and the product by 1000
    are exact), one JSON body, a method with a space as one
    [http.NewRequest] refuses. *)
Definition sample_Parse_RFC1123 (s : string) : option Z :=
  if String.eqb s "Fri, 14 Sep 2018 19:04:24 GMT"
  then Some (1536951864 * time_Second)
  else None.

Definition sample_ParseFloat_millis (s : string) : option Z :=
  match ParseInt s with
  | Some n => if Z.abs n <=? 9007199254740 then Some (n * 1000) else None
  | None => None
  end.

(** The body of a global 429 as Discord sends it. *)
Definition sample_body_text : string :=
  String.concat quote
    ["{"; "message"; ": "; "You are being rate limited."; ", "; "retry_after";
     ": 2000, "; "global"; ": true}"].

Definition sample_body : list byte := list_byte_of_string sample_body_text.

(** It decodes that one body and the JSON [null]; every other body is an
    error. *)
Definition sample_json_Unmarshal (body : list byte) : unmarshalled :=
  if String.eqb (string_of_list_byte body) sample_body_text
  then Unmarshalled (mkRateLimitResponse "You are being rate limited." 2000 true)
  else if String.eqb (string_of_list_byte body) "null" then UnmarshalNull
  else UnmarshalError.

Definition sample_http_NewRequest_ok (method url : string) : bool :=
  negb (String.eqb method "BAD METHOD").

Lemma sample_ParseFloat_millis_int64 (s : string) (z : Z) :
  sample_ParseFloat_millis s = Some z -> is_int64 z.
Proof.
  unfold sample_ParseFloat_millis.
  destruct (ParseInt s) as [n |]; [| discriminate].
  destruct (Z.leb_spec (Z.abs n) 9007199254740) as [Hn | Hn]; [| discriminate].
  intros [= <-]. unfold is_int64, minInt64, maxInt64. lia.
Qed.

Lemma sample_json_Unmarshal_int64 (body : list byte) (v : RateLimitResponseStructure) :
  sample_json_Unmarshal body = Unmarshalled v -> is_int64 (RetryAfter v).
Proof.
  unfold sample_json_Unmarshal.
  destruct (String.eqb _ sample_body_text).
  - intros [= <-]. vm_compute. split; discriminate.
  - destruct (String.eqb _ "null"); discriminate.
Qed.

#[local] Instance sample_Externals : Externals := {|
  time_Parse_RFC1123 := sample_Parse_RFC1123;
  ParseFloat_millis := sample_ParseFloat_millis;
  ParseFloat_millis_int64 := sample_ParseFloat_millis_int64;
  json_Unmarshal := sample_json_Unmarshal;
  json_Unmarshal_int64 := sample_json_Unmarshal_int64;
  GoValue := option (list byte);
  json_Marshal := fun v => v;
  http_NewRequest_ok := sample_http_NewRequest_ok;
  gzip_decode := fun _ => None;
  Unmarshal_ErrREST := fun _ => None;
  group_consolidate := fun group h _ _ => (group, h)
|}.

Definition sample_conf : Config :=
  mkConfig 6 "token" None true "1.0" "https://example.org/bot" "".

Definition sample_client : Client :=
  mkClient (String.append BaseURL "/v6") ∅ (mkHTTPClient (10 * time_Second))
           false (NewManager 0).

Definition sample_world : World := mkWorld 0 0 None 0 0 0 0.

(** A GET without a body, and a POST whose body [json.Marshal] refuses. *)
Definition sample_get : Request :=
  mkRequest GroupChannels 42 "messages" "GET" "" "/channels/42/messages" BodyNil "".

Definition sample_post : Request :=
  mkRequest GroupChannels 42 "messages" "POST" "" "/channels/42/messages"
            (BodyValue None) ContentTypeJSON.

(* ===================================================================== *)
(** ** More of bucket.go: the local keys of a bucket *)
(* ===================================================================== *)

(** The loop of [LinkedTo] and of [AddLocalKey]: is [localKey] among the
    keys? *)
Fixpoint hasLocalKey (keys : list string) (localKey : string) : bool :=
  match keys with
  | [] => false
  | k :: rest => if String.eqb k localKey then true else hasLocalKey rest localKey
  end.

(** [b.LinkedTo(localKey)] *)
Definition LinkedTo (b : bucket) (localKey : string) : bool :=
  hasLocalKey (localKeys b) localKey.

(** [b.AddLocalKey(key)] *)
Definition AddLocalKey (key : string) (b : bucket) : bucket :=
  if hasLocalKey (localKeys b) key then b
  else set_localKeys (localKeys b ++ [key])%list b.

(* ===================================================================== *)
(** ** The message bindings: parameters checked before a request *)
(* ===================================================================== *)

(** [Snowflake.IsZero()]. Modelled from the spec: the type is declared
    outside the sources; "a 64-bit opaque identifier. Zero is the sentinel
    unset". *)
Definition Snowflake_IsZero (s : Z) : bool := s =? 0.

Record GetMessagesParams : Type := mkGetMessagesParams {
  Around : Z;
  Before : Z;
  After : Z;
  Limit : Z
}.

(** [p.Validate()]; [None] is a nil error. *)
Definition GetMessagesParams_Validate (p : GetMessagesParams) : option error :=
  let mutuallyExclusives := 0 in
  let mutuallyExclusives :=
    if negb (Snowflake_IsZero (Around p)) then mutuallyExclusives + 1
    else mutuallyExclusives in
  let mutuallyExclusives :=
    if negb (Snowflake_IsZero (Before p)) then mutuallyExclusives + 1
    else mutuallyExclusives in
  let mutuallyExclusives :=
    if negb (Snowflake_IsZero (After p)) then mutuallyExclusives + 1
    else mutuallyExclusives in
  if 1 <? mutuallyExclusives
  then Some (ErrOther
         (String.concat quote
            ["only one of the keys "; "around"; ", "; "before"; " and "; "after";
             " can be set at the time"]))
  else None.

Record DeleteMessagesParams : Type := mkDeleteMessagesParams {
  Messages : list Z
}.

(** [p.tooMany(messages)] and [p.tooFew(messages)] *)
Definition tooMany (messages : Z) : option error :=
  if 100 <? messages then Some (ErrOther "must be 100 or less messages to delete")
  else None.

Definition tooFew (messages : Z) : option error :=
  if messages <? 2 then Some (ErrOther "must be at least two messages to delete")
  else None.

(** [p.Valid()] *)
Definition DeleteMessagesParams_Valid (p : DeleteMessagesParams) : option error :=
  let messages := Z.of_nat (length (Messages p)) in
  match tooMany messages with
  | Some e => Some e
  | None => tooFew messages
  end.

(** [p.AddMessage(msg)]; [msgID] is [msg.ID]. *)
Definition AddMessage (msgID : Z) (p : DeleteMessagesParams)
    : option error * DeleteMessagesParams :=
  match tooMany (Z.of_nat (length (Messages p)) + 1) with
  | Some e => (Some e, p)
  | None => (None, mkDeleteMessagesParams (Messages p ++ [msgID])%list)
  end.

(** A run of [AddMessage] calls; the calls that fail change nothing. *)
Fixpoint AddMessage_all (ids : list Z) (p : DeleteMessagesParams) : DeleteMessagesParams :=
  match ids with
  | [] => p
  | i :: rest => AddMessage_all rest (snd (AddMessage i p))
  end.

(** Lines 584-586 of [CreateMessageParams.prepare]: the content of a
    message marked as a spoiler is wrapped, in place. *)
Definition spoilerTagContent (spoiler : bool) (content : string) : string :=
  if spoiler && (0 <? Z.of_nat (String.length content))
  then String.append "|| " (String.append content " ||")
  else content.

(** Lines 120-124 of [Message.updateInternals]: [SpoilerTagContent] once the
    content has been looked at; [before] is the value the field had. *)
Definition updateSpoilerTagContent (before : bool) (content : string) : bool :=
  if Nat.leb (String.length "||||") (String.length content) then
    let prefix := String.substring 0 2 content in
    let suffix := String.substring (String.length content - 2) 2 content in
    String.eqb (String.append prefix suffix) "||||"
  else before.

(** Lines 126-135 of [Message.updateInternals], on the [SpoilerTag] of each
    attachment as [Attachment.updateInternals] has set it: the new
    [SpoilerTagAllAttachments] and [HasSpoilerImage]. *)
Fixpoint updateAttachments_loop (tags : list bool) (all has : bool) : bool * bool :=
  match tags with
  | [] => (all, has)
  | tag :: rest =>
      if negb tag then (false, has)
      else updateAttachments_loop rest all true
  end.

Definition updateAttachments (tags : list bool) (hasSpoilerImage : bool) : bool * bool :=
  updateAttachments_loop tags (0 <? Z.of_nat (length tags)) hasSpoilerImage.

(* ===================================================================== *)
(** ** Vocabulary of the further statements *)
(* ===================================================================== *)

(** Does [UpdateBucket] write the global bucket (line 83)? *)
Definition to_global (header : gmap string (list string)) : bool :=
  String.eqb (Header_Get header XRateLimitGlobal) "true".

(** The bucket [UpdateBucket] writes, [bu] in the source. *)
Definition written (header : gmap string (list string)) (st : store) : bucket :=
  if to_global header then gbl st else loc st.

(** The clock drift [UpdateBucket] computes (lines 74-80). *)
Definition drift `{Ext : Externals} (clock1 clock2 : Z)
    (header : gmap string (list string)) : Z :=
  Time_Sub clock2 (match HeaderToTime header with Some t => t | None => clock1 end).

(** The fields no header ever writes. *)
Definition same_dormant (b b' : bucket) : Prop :=
  active b' = active b /\ invalid b' = invalid b /\
  localKeys b' = localKeys b /\ lastUpdated b' = lastUpdated b /\
  shortestTimeout b' = shortestTimeout b.

(** [h'] differs from [h] at most under the three keys the normaliser
    writes. *)
Definition only_rate_limit_keys (h h' : gmap string (list string)) : Prop :=
  forall k : string,
    k <> CanonicalMIMEHeaderKey XRateLimitReset ->
    k <> CanonicalMIMEHeaderKey XRateLimitResetAfter ->
    k <> CanonicalMIMEHeaderKey XRateLimitGlobal ->
    h' !! k = h !! k.

(** The number of requests sent and of regrets in a trace. *)
Definition sends (tr : list event) : nat := length (filter is_send tr).
Definition regrets (tr : list event) : nat := length (filter is_regret tr).

Definition is_update (e : event) : bool :=
  match e with
  | EvUpdateBucket _ => true
  | _ => false
  end.

(* ===================================================================== *)
(** * Properties *)
(* ===================================================================== *)

(** ** Machine integers *)

Lemma two64_eq : two64 = 18446744073709551616.
Proof. reflexivity. Qed.

Lemma maxUint_eq : maxUint = 18446744073709551615.
Proof. reflexivity. Qed.

Lemma wrapU_is_uint (z : Z) : is_uint (wrapU z).
Proof.
  unfold is_uint, wrapU. rewrite maxUint_eq, two64_eq.
  pose proof (Z.mod_pos_bound z 18446744073709551616). lia.
Qed.

Lemma wrapU_id (z : Z) : is_uint z -> wrapU z = z.
Proof.
  unfold is_uint, wrapU. rewrite maxUint_eq, two64_eq. intros H.
  apply Z.mod_small. lia.
Qed.


Lemma wrapU_succ_ne (r : Z) : wrapU (r + 1) <> r.
Proof.
  unfold wrapU. rewrite two64_eq. intros H.
  pose proof (Z.mod_pos_bound (r + 1) 18446744073709551616) as Hb.
  assert (Hr : 0 <= r < 18446744073709551616) by lia.
  destruct (Z.eq_dec r 18446744073709551615) as [-> | Hne].
  - vm_compute in H. discriminate.
  - rewrite Z.mod_small in H by lia. lia.
Qed.

Lemma wrapU_pred_succ (r : Z) : is_uint r -> wrapU (wrapU (r - 1) + 1) = r.
Proof.
  intros Hr. unfold wrapU. rewrite Zplus_mod_idemp_l.
  replace (r - 1 + 1) with r by lia. apply (wrapU_id r Hr).
Qed.

Lemma wrap64_id (z : Z) : is_int64 z -> wrap64 z = z.
Proof.
  unfold is_int64, wrap64, minInt64, maxInt64. rewrite two64_eq. intros H.
  rewrite Z.mod_small by lia. lia.
Qed.

Lemma wrap64_is_int64 (z : Z) : is_int64 (wrap64 z).
Proof.
  unfold is_int64, wrap64, minInt64, maxInt64. rewrite two64_eq.
  pose proof (Z.mod_pos_bound (z + 2 ^ 63) 18446744073709551616). lia.
Qed.

(** ** The bucket *)

Lemma update_cases (now : Time) (b : bucket) :
  (longestTimeout b = 0 /\ update now b = b)
  \/ (longestTimeout b <> 0 /\ reset b <= now /\
      update now b =
        set_lastUpdated now
          (set_reset (Time_Add now (millis (wrap64 (longestTimeout b))))
             (set_remaining 1 b)))
  \/ (longestTimeout b <> 0 /\ now < reset b /\
      update now b = set_lastUpdated now b).
Proof.
  unfold update, Time_After.
  destruct (Z.eqb_spec (longestTimeout b) 0) as [H0 | H0]; [left; auto |].
  destruct (Z.ltb_spec now (reset b)) as [Hlt | Hge]; simpl.
  - right; right; auto.
  - right; left; auto.
Qed.

Lemma update_longestTimeout (now : Time) (b : bucket) :
  longestTimeout (update now b) = longestTimeout b.
Proof.
  destruct (update_cases now b) as [[_ ->] | [(_ & _ & ->) | (_ & _ & ->)]];
    reflexivity.
Qed.

Lemma limited_true (now : Time) (b : bucket) :
  limited now b = true <-> now < reset b /\ remaining b = 0.
Proof.
  unfold limited, Time_After.
  rewrite andb_true_iff, Z.ltb_lt, Z.eqb_eq. tauto.
Qed.

Lemma limited_false (now : Time) (b : bucket) :
  limited now b = false <-> reset b <= now \/ remaining b <> 0.
Proof.
  unfold limited, Time_After.
  rewrite andb_false_iff, Z.ltb_ge, Z.eqb_neq. tauto.
Qed.

(** The three ways out of [acquire], by the bucket after the refresh. *)
Lemma acquire_cases (now : Time) (within : Z) (b : bucket) :
  let b' := update now b in
  (limited now b' = true /\ 0 < within /\ reset b' < now + within /\
   acquire now within b =
     (mkAcquired (Time_Sub (Time_Add now within) (reset b')) true None, dec b'))
  \/ (limited now b' = true /\ ~ (0 < within /\ reset b' < now + within) /\
      acquire now within b = (mkAcquired 0 true (Some ErrRateLimited), b'))
  \/ (limited now b' = false /\
      acquire now within b = (mkAcquired 0 false None, dec b')).
Proof.
  intros b'. unfold acquire. fold b'.
  destruct (limited now b') eqn:Hlim.
  - unfold Time_Before, Time_Add; cbn [instant].
    destruct (Z.ltb_spec 0 within) as [Hw | Hw];
      destruct (Z.ltb_spec (reset b') (now + within)) as [Hr | Hr]; simpl.
    + left. auto.
    + right; left. repeat split; auto. lia.
    + right; left. repeat split; auto. lia.
    + right; left. repeat split; auto. lia.
  - right; right. auto.
Qed.

(** X1. In the branch that reserves a permit of the next window, the delay
    that [acquire] returns is what is left of the caller's budget once the
    window has ended, [now + within - reset]. *)
Lemma acquire_reserve_delay (now : Time) (within : Z) (b : bucket) :
  is_int64 within ->
  limited now (update now b) = true ->
  0 < within ->
  reset (update now b) < now + within ->
  acquire now within b =
    (mkAcquired (now + within - reset (update now b)) true None,
     dec (update now b)).
Proof.
  intros Hw Hlim Hpos Hbefore.
  destruct (acquire_cases now within b) as [(_ & _ & _ & ->) | [(_ & Hno & _) | (Hl & _)]].
  - apply limited_true in Hlim as [Hlt _].
    f_equal. f_equal. unfold Time_Sub, Time_Add. cbn [instant].
    unfold is_int64, minInt64, maxInt64 in *.
    destruct (Z.leb_spec (- 2 ^ 63) (now + within - reset (update now b)));
      destruct (Z.leb_spec (now + within - reset (update now b)) (2 ^ 63 - 1));
      simpl; try reflexivity; lia.
  - exfalso. apply Hno. split; assumption.
  - congruence.
Qed.

(** C1 (the code departs from the claim). With [remaining = 0] and
    [reset = now + 150ms], a caller passing [within = 500ms] is told to wait
    350ms, the budget left after the reset ([now + within - reset]), and not
    the 150ms to the reset ([reset - now]); it is rate limited without an
    error, and the decrement of [remaining = 0] wraps around. *)
Theorem Acquire_S2_delay_is_350ms :
  let now := time_Now (1536951864 * time_Second) in
  let b := mkBucket "" [] false time_zero 1 0
             (time_Unix0 (now + 150 * time_Millisecond)) 0 0 false in
  let st := mkStore (newBucket now) b in
  let out := Acquire now (500 * time_Millisecond) st in
  delay (fst (fst out)) = 350 * time_Millisecond /\
  reset b - now = 150 * time_Millisecond /\
  rateLimited (fst (fst out)) = true /\
  err (fst (fst out)) = None /\
  remaining (loc (snd out)) = maxUint.
Proof. vm_compute. repeat split. Qed.

(** With [reset = now + 400ms] and the same budget the delay is 100ms: the
    caller's sleep ends 300ms before the window does. *)
Example Acquire_delay_ends_before_reset :
  let now := time_Now (1536951864 * time_Second) in
  let b := mkBucket "" [] false time_zero 1 0
             (time_Unix0 (now + 400 * time_Millisecond)) 0 0 false in
  let out := Acquire now (500 * time_Millisecond) (mkStore (newBucket now) b) in
  delay (fst (fst out)) = 100 * time_Millisecond /\
  now + delay (fst (fst out)) < reset b.
Proof. vm_compute. split; reflexivity. Qed.






(** The refresh with a period that has wrapped around. A fresh bucket
    receives an ordinary response (the date of 14 Sep 2018, a window that
    ends five seconds later): [UpdateBucket] stores a reset in January 1970
    and with it a [longestTimeout] above [2^63]. Three seconds later the
    refresh runs, the new window ends before it starts, and [Acquire]
    grants. *)
Example Acquire_granted_after_wrapped_refresh :
  let date := 1536951864 * time_Second in
  let header :=
    Header_Set (Header_Set ∅ "date" "Fri, 14 Sep 2018 19:04:24 GMT")
               XRateLimitReset "1536951869000" in
  let st :=
    UpdateBucket_store (Ext := sample_Externals) date date header
      (mkStore (newBucket date) (newBucket date)) in
  let now := time_Now (date + 3 * time_Second) in
  let b := target st in
  longestTimeout b = 18446742536755624568 /\
  rateLimited (fst (fst (Acquire now (10 * time_Second) st))) = false /\
  remaining (update now b) = 1 /\
  reset (update now b) = Time_Add now (- (1536953927048 * time_Millisecond)) /\
  reset (update now b) < now.
Proof. vm_compute. repeat split. Qed.


(** S6: a permit is reserved, the window rolls over (the refresh runs on the
    next [Acquire]), and the regret with the stale ticket changes nothing. *)
Example RegretAcquire_after_rollover :
  let b := mkBucket "" [] false time_zero 5 3 (time_Unix0 1000) 500 0 false in
  let st0 := mkStore (newBucket 0) b in
  let '(_, ticket, st1) := Acquire (time_Now 10) 0 st0 in
  let '(_, _, st2) := Acquire (time_Now (1000 + 1)) 0 st1 in
  remaining (loc st1) = 2 /\
  remaining (loc st2) = 0 /\
  RegretAcquire ticket st2 = st2 /\
  remaining (loc (RegretAcquire ticket st1)) = 3.
Proof. vm_compute. repeat split. Qed.



(** One instant held in two ways: the bucket's reset carries a monotonic
    reading (it was made by [now.Add]), the ticket's does not (it was made
    by [time.Unix]). The two are not [==], and the regret is discarded. *)
Example RegretAcquire_same_instant_other_representation :
  let i := 1536951864 * time_Second in
  let b := mkBucket "" [] false time_zero 5 3 (time_Now i) 0 0 false in
  let st := mkStore (newBucket 0) b in
  instant (time_Unix0 i) = instant (reset (loc st)) /\
  RegretAcquire (mkBucketID false (time_Unix0 i)) st = st /\
  remaining (loc (RegretAcquire (mkBucketID false (time_Now i)) st)) = 4.
Proof. vm_compute. repeat split. Qed.

(** The error of [acquire]: when it is returned and what it leaves. *)
Lemma acquire_ErrRateLimited (now : Time) (within : Z) (b : bucket) :
  let b' := update now b in
  let out := acquire now within b in
  (err (fst out) = Some ErrRateLimited <->
     (now < reset b' /\ remaining b' = 0) /\
     ~ (0 < within /\ reset b' < now + within))
  /\ (err (fst out) = None \/ err (fst out) = Some ErrRateLimited)
  /\ (err (fst out) = Some ErrRateLimited ->
      delay (fst out) = 0 /\ rateLimited (fst out) = true /\
      remaining (snd out) = remaining b /\ reset (snd out) = reset b /\
      remaining (snd out) = 0).
Proof.
  intros b' out. subst out.
  destruct (acquire_cases now within b) as
    [(Hlim & Hw & Hr & ->) | [(Hlim & Hno & ->) | (Hlim & ->)]];
    fold b' in Hlim |- *; simpl.
  - split; [| split; [left; reflexivity |]]; [split |]; try discriminate.
    intros [_ Hn]. exfalso. apply Hn. auto.
  - apply limited_true in Hlim.
    split; [| split; [right; reflexivity |]].
    + split; auto.
    + intros _.
      destruct Hlim as [Hopen Hzero].
      destruct (update_cases now b) as [[_ Hb] | [(_ & _ & Hb) | (_ & _ & Hb)]];
        fold b' in Hb; rewrite Hb in Hzero |- *; simpl in *;
        repeat split; auto; try discriminate; congruence.
  - apply limited_false in Hlim.
    split; [| split; [left; reflexivity |]]; [split |]; try discriminate.
    intros [[Hopen Hzero] _]. lia.
Qed.

(** ** Wrap-around of [remaining] *)




(** ** Decimal integers *)

Lemma string_of_uint_head (d : uint) :
  d <> Nil ->
  exists c rest,
    NilEmpty.string_of_uint d = String c rest /\
    Ascii.eqb c "+" = false /\ Ascii.eqb c "-" = false.
Proof.
  destruct d; intros Hd; try (exfalso; apply Hd; reflexivity);
    simpl; eexists; eexists; (split; [reflexivity | split; reflexivity]).
Qed.

Lemma parse_Pos_to_uint (p : positive) :
  NilZero.uint_of_string (NilEmpty.string_of_uint (Pos.to_uint p)) = Some (Pos.to_uint p)
  /\ Z.of_uint (Pos.to_uint p) = Z.pos p.
Proof.
  split.
  - pose proof (NilZero.usu (Pos.to_uint p) (Unsigned.to_uint_nonnil p)) as H.
    unfold NilZero.string_of_uint in H.
    destruct (Pos.to_uint p) eqn:E; try exact H.
    exfalso. exact (Unsigned.to_uint_nonnil p E).
  - unfold Z.of_uint. rewrite Unsigned.of_to. reflexivity.
Qed.

Lemma FormatInt_pos (p : positive) :
  FormatInt (Z.pos p) = NilEmpty.string_of_uint (Pos.to_uint p).
Proof.
  unfold FormatInt. simpl. unfold NilZero.string_of_uint.
  destruct (Pos.to_uint p) eqn:E; try reflexivity.
  exfalso. exact (Unsigned.to_uint_nonnil p E).
Qed.

Lemma FormatInt_neg (p : positive) :
  FormatInt (Z.neg p) = String "-" (NilEmpty.string_of_uint (Pos.to_uint p)).
Proof.
  unfold FormatInt. simpl. unfold NilZero.string_of_uint.
  destruct (Pos.to_uint p) eqn:E; try reflexivity.
  exfalso. exact (Unsigned.to_uint_nonnil p E).
Qed.

(** What [FormatInt] writes for an [int64], [ParseInt] reads back. *)
Lemma ParseInt_FormatInt (z : Z) : is_int64 z -> ParseInt (FormatInt z) = Some z.
Proof.
  unfold is_int64, minInt64, maxInt64. intros Hz.
  destruct z as [| p | p].
  - reflexivity.
  - rewrite FormatInt_pos.
    destruct (string_of_uint_head (Pos.to_uint p) (Unsigned.to_uint_nonnil p))
      as (c & rest & Hs & Hplus & Hminus).
    destruct (parse_Pos_to_uint p) as [Hparse Hval].
    rewrite Hs in Hparse |- *. unfold ParseInt.
    rewrite Hplus, Hminus. cbn [orb]. rewrite Hparse, Hval.
    destruct (Z.ltb_spec (Z.pos p) (2 ^ 63)); [reflexivity | lia].
  - rewrite FormatInt_neg.
    destruct (parse_Pos_to_uint p) as [Hparse Hval].
    unfold ParseInt.
    replace (Ascii.eqb "-" "-") with true by reflexivity.
    replace (Ascii.eqb "-" "+") with false by reflexivity.
    cbn [orb]. rewrite Hparse, Hval.
    destruct (Z.leb_spec (Z.pos p) (2 ^ 63)); [reflexivity | lia].
Qed.

(** A formatted integer is never the empty string. *)
Lemma FormatInt_nonempty (z : Z) : String.eqb (FormatInt z) "" = false.
Proof.
  destruct z as [| p | p].
  - reflexivity.
  - rewrite FormatInt_pos.
    destruct (string_of_uint_head (Pos.to_uint p) (Unsigned.to_uint_nonnil p))
      as (c & rest & -> & _). reflexivity.
  - rewrite FormatInt_neg. reflexivity.
Qed.

Example ParseInt_samples :
  ParseInt "1536951869000" = Some 1536951869000 /\
  ParseInt "-42" = Some (-42) /\ ParseInt "+7" = Some 7 /\
  ParseInt "" = None /\ ParseInt "-" = None /\ ParseInt "1.5" = None /\
  ParseInt "9223372036854775807" = Some maxInt64 /\
  ParseInt "9223372036854775808" = None /\
  ParseInt "-9223372036854775808" = Some minInt64 /\
  FormatInt (-1500) = "-1500" /\ FormatInt 0 = "0".
Proof. vm_compute. repeat split. Qed.

(** ** UpdateBucket *)

(** X25. The reset that [UpdateBucket] stores: the header's number, which
    the normaliser wrote in milliseconds, added to the drift in nanoseconds
    and read as nanoseconds since the epoch. *)
Lemma UpdateBucket_store_reset `{Ext : Externals} (clock1 clock2 epoch : Z)
    (header : gmap string (list string)) (st : store) :
  ParseInt (Header_Get header XRateLimitReset) = Some epoch ->
  let discordTime := match HeaderToTime header with Some t => t | None => clock1 end in
  let to_global := String.eqb (Header_Get header XRateLimitGlobal) "true" in
  let st' := UpdateBucket_store clock1 clock2 header st in
  reset (if to_global then gbl st' else loc st') =
    time_Unix0 (wrap64 (epoch + Time_Sub clock2 discordTime)).
Proof.
  intros Hparse discordTime to_global st'. subst st'.
  unfold UpdateBucket_store. fold discordTime. fold to_global.
  set (bu := if to_global then gbl st else loc st).
  assert (Hne : String.eqb (Header_Get header XRateLimitReset) "" = false).
  { destruct (Header_Get header XRateLimitReset); [discriminate Hparse | reflexivity]. }
  set (r := time_Unix0 (wrap64 (epoch + Time_Sub clock2 discordTime))).
  assert (Hreset : exists b1, reset b1 = r /\
            updateReset (Time_Sub clock2 discordTime) (reset (loc st)) header bu = Continue b1).
  { unfold updateReset. rewrite Hne, Hparse. cbn [negb].
    unfold Duration_Nanoseconds. fold r.
    match goal with |- context [if ?c then _ else _] => destruct c end;
      eexists; (split; [| reflexivity]); reflexivity. }
  destruct Hreset as (b1 & Hb1 & ->). cbn [and_then].
  assert (Hrest : reset (flow_end
            (and_then (updateRemaining header b1) (fun bu0 =>
             and_then (updateLimit header bu0) (fun bu1 => updateKey header bu1)))) = r).
  { unfold updateRemaining, updateLimit, updateKey.
    repeat match goal with
           | |- context [if ?c then _ else _] => destruct c; cbn [negb and_then flow_end]
           | |- context [match ParseInt ?s with _ => _ end] =>
               destruct (ParseInt s); cbn [negb and_then flow_end]
           end; simpl; exact Hb1. }
  destruct to_global; simpl; exact Hrest.
Qed.

(** C2 (the code departs from the claim). The server's date is
    Fri, 14 Sep 2018 19:04:24 GMT (1536951864 s), the local clock is two
    seconds ahead, and the normalised header says the window ends five
    seconds after the date: [X-RateLimit-Reset: 1536951869000], in epoch
    milliseconds. [UpdateBucket] stores 1536951869000 + 2000000000
    nanoseconds since the epoch, an instant in January 1970: read back in
    epoch milliseconds it is 1538951, not the header value plus the drift,
    1536951871000. *)
Theorem UpdateBucket_reset_unit_mismatch :
  let date := 1536951864 * time_Second in
  let localTime := date + 2 * time_Second in
  let header :=
    Header_Set (Header_Set ∅ "date" "Fri, 14 Sep 2018 19:04:24 GMT")
               XRateLimitReset "1536951869000" in
  let after :=
    value_of (UpdateBucket localTime localTime localTime (NewManager date)
                           GroupChannels 42 "messages" header) in
  let stored :=
    match after with
    | Some r => option_map reset (routed r GroupChannels 42 "messages")
    | None => None
    end in
  HeaderToTime header = Some date /\
  stored = Some (time_Unix0 1538951869000) /\
  option_map (fun t : Time => epochMs t) stored = Some 1538951 /\
  1536951869000 + epochMs (localTime - date) = 1536951871000.
Proof. vm_compute. repeat split. Qed.

(** ** The header normaliser *)

Lemma Header_Get_Set_eq (h : gmap string (list string)) (k v : string) :
  Header_Get (Header_Set h k v) k = v.
Proof. unfold Header_Get, Header_Set. rewrite lookup_insert_eq. reflexivity. Qed.

Lemma Header_Get_Set_ne (h : gmap string (list string)) (k k' v : string) :
  CanonicalMIMEHeaderKey k <> CanonicalMIMEHeaderKey k' ->
  Header_Get (Header_Set h k v) k' = Header_Get h k'.
Proof.
  intros Hne. unfold Header_Get, Header_Set.
  rewrite lookup_insert_ne by exact Hne. reflexivity.
Qed.

Ltac distinct_keys := let H := fresh in intros H; vm_compute in H; discriminate H.

Section NormaliserProperties.
Context `{Ext : Externals}.

Lemma correctResetAfter_present (header : gmap string (list string)) (ms : Z) :
  Header_Get header XRateLimitResetAfter <> "" ->
  ParseFloat_millis (Header_Get header XRateLimitResetAfter) = Some ms ->
  correctResetAfter header =
    Ok (Header_Set header XRateLimitResetAfter (FormatInt ms)).
Proof.
  intros Hne Hms. unfold correctResetAfter.
  apply String.eqb_neq in Hne. rewrite Hne, Hms. reflexivity.
Qed.

Lemma correctFromBody_decoded (statusCode : Z) (body : list byte)
    (h : gmap string (list string)) (v : RateLimitResponseStructure) :
  (statusCode = StatusTooManyRequests -> json_Unmarshal body = Unmarshalled v) ->
  exists h',
    correctFromBody statusCode body h = Ok h' /\
    Header_Get h' XRateLimitReset = Header_Get h XRateLimitReset /\
    Header_Get h' RateLimitRetryAfter = Header_Get h RateLimitRetryAfter /\
    Header_Get h' XRateLimitResetAfter =
      if (statusCode =? StatusTooManyRequests) && (0 <? RetryAfter v)
      then FormatInt (RetryAfter v)
      else Header_Get h XRateLimitResetAfter.
Proof.
  intros Hbody. unfold correctFromBody.
  destruct (Z.eqb_spec statusCode StatusTooManyRequests) as [E | E].
  - rewrite (Hbody E). cbn [andb].
    destruct (Global v), (0 <? RetryAfter v); eexists; (split; [reflexivity |]);
      repeat split;
      rewrite ?Header_Get_Set_eq;
      repeat (rewrite Header_Get_Set_ne by distinct_keys);
      rewrite ?Header_Get_Set_eq; reflexivity.
  - eexists. split; [reflexivity |]. cbn [andb]. auto.
Qed.

(** Lines 94-95 without overflow: the epoch milliseconds of the timestamp
    plus the delay. The timestamp is not before 1970, and neither the delay
    in nanoseconds nor the sum leaves [int64]. *)
Lemma resetEpochMs_exact (timestamp delay : Z) :
  0 <= timestamp <= maxInt64 ->
  is_int64 (delay * time_Millisecond) ->
  0 <= timestamp + delay * time_Millisecond <= maxInt64 ->
  resetEpochMs timestamp delay = epochMs timestamp + delay.
Proof.
  unfold resetEpochMs, epochMs, Time_UnixNano, millis, is_int64, minInt64, maxInt64,
    time_Millisecond.
  intros Ht Hd Hsum.
  rewrite (wrap64_id (delay * 1000000))
    by (unfold is_int64, minInt64, maxInt64; lia).
  rewrite (wrap64_id (timestamp + delay * 1000000))
    by (unfold is_int64, minInt64, maxInt64; lia).
  rewrite (wrap64_id timestamp) by (unfold is_int64, minInt64, maxInt64; lia).
  rewrite !Z.quot_div_nonneg by lia.
  rewrite Z.div_add by lia. reflexivity.
Qed.

(** C7 (amended). The input has no [X-RateLimit-Reset], its
    [X-RateLimit-Reset-After] parses as a float ([ms] once rewritten in
    integer milliseconds), and the body of a 429 decodes. The delay the
    normaliser then uses is: the [Retry-After] header when there is one;
    else [retry_after] of a 429 body when positive; else [ms]. If the delay
    is an integer, no error is returned and the output [X-RateLimit-Reset] is
    what lines 94-95 compute in [int64] from the date header (the local
    clock when it is missing or unparsable) and the delay; without a
    [Retry-After] header this is always so. That number is the epoch
    milliseconds of the date plus the delay whenever the date is not before
    1970 and neither the delay in nanoseconds nor the sum leaves [int64];
    otherwise it wraps around. A [Retry-After] that is not an integer makes
    the call return an error. *)
Theorem CorrectDiscordHeader_synthesises_reset (clock statusCode : Z)
    (header : gmap string (list string)) (body : list byte) (ms : Z)
    (v : RateLimitResponseStructure) :
  Header_Get header XRateLimitReset = "" ->
  Header_Get header XRateLimitResetAfter <> "" ->
  ParseFloat_millis (Header_Get header XRateLimitResetAfter) = Some ms ->
  (statusCode = StatusTooManyRequests -> json_Unmarshal body = Unmarshalled v) ->
  let timestamp :=
    match HeaderToTime header with
    | Some t => t
    | None => clock
    end in
  let from_body := (statusCode =? StatusTooManyRequests) && (0 <? RetryAfter v) in
  let delay_str :=
    if String.eqb (Header_Get header RateLimitRetryAfter) ""
    then FormatInt (if from_body then RetryAfter v else ms)
    else Header_Get header RateLimitRetryAfter in
  let out := CorrectDiscordHeader clock statusCode header body in
  match ParseInt delay_str with
  | Some delay =>
      exists h',
        out = Ok h' /\
        Header_Get h' XRateLimitReset = FormatInt (resetEpochMs timestamp delay) /\
        Header_Get h' XRateLimitResetAfter = delay_str /\
        (0 <= timestamp <= maxInt64 ->
         is_int64 (delay * time_Millisecond) ->
         0 <= timestamp + delay * time_Millisecond <= maxInt64 ->
         Header_Get h' XRateLimitReset = FormatInt (epochMs timestamp + delay))
  | None => exists e, out = Err e
  end
  /\ (Header_Get header RateLimitRetryAfter = "" ->
      ParseInt delay_str = Some (if from_body then RetryAfter v else ms)).
Proof.
  intros Hreset Hafter Hms Hbody timestamp from_body delay_str out.
  assert (Hrange : is_int64 (if from_body then RetryAfter v else ms)).
  { unfold from_body.
    destruct (Z.eqb_spec statusCode StatusTooManyRequests) as [E | E]; cbn [andb].
    - destruct (0 <? RetryAfter v).
      + exact (json_Unmarshal_int64 body v (Hbody E)).
      + exact (ParseFloat_millis_int64 _ _ Hms).
    - exact (ParseFloat_millis_int64 _ _ Hms). }
  split.
  2:{ intros Hno. unfold delay_str. rewrite Hno. cbn [String.eqb].
      apply ParseInt_FormatInt. exact Hrange. }
  subst out. unfold CorrectDiscordHeader. fold timestamp.
  rewrite (correctResetAfter_present header ms Hafter Hms). cbn [result_bind].
  destruct (correctFromBody_decoded statusCode body
              (Header_Set header XRateLimitResetAfter (FormatInt ms)) v Hbody)
    as (h2 & -> & H2reset & H2retry & H2after).
  cbn [result_bind].
  rewrite Header_Get_Set_ne in H2reset by distinct_keys.
  rewrite Header_Get_Set_ne in H2retry by distinct_keys.
  rewrite Header_Get_Set_eq in H2after. fold from_body in H2after.
  set (h3 := correctRetryAfter h2).
  assert (H3reset : Header_Get h3 XRateLimitReset = "").
  { unfold h3, correctRetryAfter.
    destruct (negb _); [rewrite Header_Get_Set_ne by distinct_keys |]; congruence. }
  assert (H3after : Header_Get h3 XRateLimitResetAfter = delay_str).
  { unfold h3, correctRetryAfter, delay_str. rewrite H2retry.
    destruct (String.eqb (Header_Get header RateLimitRetryAfter) ""); cbn [negb].
    - rewrite H2after. destruct from_body; reflexivity.
    - apply Header_Get_Set_eq. }
  assert (Hnonempty : String.eqb delay_str "" = false).
  { unfold delay_str.
    destruct (String.eqb (Header_Get header RateLimitRetryAfter) "") eqn:E.
    - apply FormatInt_nonempty.
    - exact E. }
  unfold correctReset. rewrite H3reset. cbn [String.eqb negb result_bind].
  unfold synthesiseReset. rewrite H3reset, H3after, Hnonempty.
  cbn [String.eqb negb].
  destruct (ParseInt delay_str) as [delay |].
  - eexists. split; [reflexivity |]. split; [| split].
    + apply Header_Get_Set_eq.
    + rewrite Header_Get_Set_ne by distinct_keys. exact H3after.
    + intros Ht Hd Hsum. rewrite Header_Get_Set_eq.
      rewrite (resetEpochMs_exact timestamp delay Ht Hd Hsum). reflexivity.
  - eexists. reflexivity.
Qed.

End NormaliserProperties.

(** C7 as stated fails, on two inputs that have an
    [X-RateLimit-Reset-After] of five seconds and no [X-RateLimit-Reset]; the
    date is Fri, 14 Sep 2018 19:04:24 GMT. With [Retry-After: 1] the output
    [X-RateLimit-Reset] is the date plus one millisecond, not the date plus
    the five seconds of [X-RateLimit-Reset-After]. With a [Retry-After] in
    the date form of HTTP the call returns an error and no header at all. *)
Lemma CorrectDiscordHeader_Retry_After_overrides :
  let date := 1536951864 * time_Second in
  let base :=
    Header_Set (Header_Set ∅ "date" "Fri, 14 Sep 2018 19:04:24 GMT")
               XRateLimitResetAfter "5" in
  let header1 := Header_Set base RateLimitRetryAfter "1" in
  let header2 := Header_Set base RateLimitRetryAfter "Fri, 14 Sep 2018 19:04:29 GMT" in
  let out1 := value_of (CorrectDiscordHeader date 200 header1 []) in
  (HeaderToTime header1 = Some date /\
   Header_Get header1 XRateLimitReset = "" /\
   ParseFloat_millis (Header_Get header1 XRateLimitResetAfter) = Some 5000 /\
   option_map (fun h => Header_Get h XRateLimitReset) out1 = Some "1536951864001" /\
   option_map (fun h => Header_Get h XRateLimitReset) out1
     <> Some (FormatInt (resetEpochMs date 5000)) /\
   FormatInt (resetEpochMs date 5000) = "1536951869000")
  /\ (Header_Get header2 XRateLimitReset = "" /\
      Header_Get header2 XRateLimitResetAfter = "5" /\
      CorrectDiscordHeader date 200 header2 [] = Err (ErrOther "strconv.ParseInt")).
Proof.
  vm_compute. repeat split. intros H. discriminate H.
Qed.

(** The wrap-around of lines 94-95: with the same date and a delay of
    9223372036855 ms the product by [time.Millisecond] leaves [int64], and
    the output is negative instead of the date plus the delay. *)
Example resetEpochMs_wraps :
  let date := 1536951864 * time_Second in
  let header :=
    Header_Set (Header_Set (Header_Set ∅ "date" "Fri, 14 Sep 2018 19:04:24 GMT")
                  XRateLimitResetAfter "5")
               RateLimitRetryAfter "9223372036855" in
  option_map (fun h => Header_Get h XRateLimitReset)
    (value_of (CorrectDiscordHeader date 200 header [])) = Some "-7686420172854" /\
  resetEpochMs date 9223372036855 = -7686420172854 /\
  epochMs date + 9223372036855 = 10760323900855.
Proof. vm_compute. repeat split. Qed.

(** One run of the theorem: status 200, the date above, five seconds. *)
Lemma CorrectDiscordHeader_synthesises_reset_witness :
  let date := 1536951864 * time_Second in
  let header :=
    Header_Set (Header_Set ∅ "date" "Fri, 14 Sep 2018 19:04:24 GMT")
               XRateLimitResetAfter "5" in
  exists h',
    CorrectDiscordHeader 0 200 header [] = Ok h' /\
    Header_Get h' XRateLimitReset = "1536951869000" /\
    Header_Get h' XRateLimitResetAfter = "5000".
Proof.
  set (date := 1536951864 * time_Second).
  set (header := Header_Set (Header_Set ∅ "date" "Fri, 14 Sep 2018 19:04:24 GMT")
                            XRateLimitResetAfter "5").
  assert (H1 : Header_Get header XRateLimitReset = "") by (vm_compute; reflexivity).
  assert (H2 : Header_Get header XRateLimitResetAfter <> "")
    by (vm_compute; discriminate).
  assert (H3 : ParseFloat_millis (Header_Get header XRateLimitResetAfter) = Some 5000)
    by (vm_compute; reflexivity).
  assert (H4 : 200 = StatusTooManyRequests ->
               json_Unmarshal [] = Unmarshalled (mkRateLimitResponse "" 0 false))
    by (intros H; discriminate H).
  pose proof (CorrectDiscordHeader_synthesises_reset 0 200 header [] 5000
                (mkRateLimitResponse "" 0 false) H1 H2 H3 H4) as [H _].
  cbv zeta in H.
  replace (ParseInt _) with (Some 5000) in H by (vm_compute; reflexivity).
  destruct H as (h' & Hout & _ & Ha & Hexact).
  exists h'. split; [exact Hout |]. split.
  - rewrite Hexact by (vm_compute; split; intros Hc; discriminate Hc).
    vm_compute. reflexivity.
  - rewrite Ha. vm_compute. reflexivity.
Defined.

(** ** NewClient *)

(** C8. [NewClient] returns an error whenever the API version is not in the
    compiled list (which holds 6 alone), the bot token is empty, or the
    source URL or the version of the user agent is empty. Otherwise it
    returns a client, whose HTTP client is the configured one, or one with a
    timeout of ten seconds when none was configured. *)
Theorem NewClient_validation (now : Z) (conf : Config) :
  let rejected :=
    SupportsDiscordAPIVersion (APIVersion conf) = false \/
    BotToken conf = "" \/
    UserAgentSourceURL conf = "" \/ UserAgentVersion conf = "" in
  (SupportsDiscordAPIVersion (APIVersion conf) = true <-> APIVersion conf = 6)
  /\ (rejected -> exists e, fst (NewClient now conf) = Err e)
  /\ (~ rejected ->
      exists c,
        fst (NewClient now conf) = Ok c /\
        httpClient c =
          match HTTPClient conf with
          | Some h => h
          | None => mkHTTPClient (10 * time_Second)
          end /\
        HTTPClient (snd (NewClient now conf)) = Some (httpClient c) /\
        url c = String.append BaseURL (String.append "/v" (FormatInt (APIVersion conf)))).
Proof.
  intros rejected. subst rejected.
  assert (Hsup : SupportsDiscordAPIVersion (APIVersion conf) = true <-> APIVersion conf = 6).
  { unfold SupportsDiscordAPIVersion, supports. cbn [SupportsDiscordAPIVersion_loop].
    destruct (Z.eqb_spec 6 (APIVersion conf)) as [E | E]; split; intros H;
      try reflexivity; try discriminate; lia. }
  split; [exact Hsup |].
  unfold NewClient.
  destruct (SupportsDiscordAPIVersion (APIVersion conf)) eqn:Hv; cbn [negb].
  2:{ split; [intros _; eexists; reflexivity |].
      intros Hn. exfalso. apply Hn. left. reflexivity. }
  destruct (String.eqb_spec (BotToken conf) "") as [Ht | Ht].
  { split; [intros _; eexists; reflexivity |].
    intros Hn. exfalso. apply Hn. right; left. exact Ht. }
  destruct (HTTPClient conf) as [h |] eqn:Hh;
    cbn [set_HTTPClient UserAgentSourceURL UserAgentVersion UserAgentExtra BotToken APIVersion];
    destruct (String.eqb_spec (UserAgentSourceURL conf) "") as [Hu | Hu];
    destruct (String.eqb_spec (UserAgentVersion conf) "") as [Hw | Hw];
    cbn [orb fst snd];
    (split;
     [ intros Hr;
       first [ solve [eexists; reflexivity]
             | destruct Hr as [Hr | [Hr | [Hr | Hr]]]; congruence ]
     | intros Hn;
       first [ solve [exfalso; apply Hn; tauto]
             | eexists; (split; [reflexivity |]); cbn [httpClient url HTTPClient];
               repeat split; try assumption; reflexivity ] ]).
Qed.

(** What a client made by [NewClient] holds. *)
Lemma NewClient_client (now : Z) (conf : Config) (c : Client) :
  fst (NewClient now conf) = Ok c ->
  cancelRequestWhenRateLimited c = false /\
  httpClient c =
    match HTTPClient conf with
    | Some h => h
    | None => mkHTTPClient (time_Second * 10)
    end /\
  rateLimitMngr c = NewManager now.
Proof.
  unfold NewClient.
  destruct (SupportsDiscordAPIVersion (APIVersion conf)); cbn [negb fst];
    [| discriminate].
  destruct (String.eqb (BotToken conf) ""); cbn [fst]; [discriminate |].
  destruct (HTTPClient conf) as [h |];
    cbn [set_HTTPClient UserAgentSourceURL UserAgentVersion UserAgentExtra BotToken APIVersion];
    match goal with |- context [if ?x then _ else _] => destruct x end;
    cbn [fst]; try discriminate;
    intros [= <-]; repeat split.
Qed.

(** ** The dispatcher *)

Ltac break_match :=
  match goal with
  | |- context [match ?x with _ => _ end] => destruct x eqn:?
  end.

Lemma budgets_app (tr1 tr2 : list event) :
  budgets (tr1 ++ tr2) = (budgets tr1 ++ budgets tr2)%list.
Proof.
  induction tr1 as [| e tr1 IH]; [reflexivity |].
  destruct e; simpl; rewrite IH; reflexivity.
Qed.

Section DispatcherProperties.
Context `{Ext : Externals}.

Lemma Do_response_frame (w : World) (c : Client) (r : Request) (b : nat)
    (populated : bool) (resp : Response) (tr : list event) :
  same_settings c (client_after (Do_response w c r b populated resp tr)) /\
  budgets (trace (Do_response w c r b populated resp tr)) = budgets tr.
Proof.
  unfold Do_response, same_settings.
  repeat break_match; cbn [client_after trace set_manager cancelRequestWhenRateLimited httpClient url];
    rewrite ?budgets_app; cbn [budgets]; rewrite ?app_nil_r; auto.
Qed.

Lemma Do_send_frame (w : World) (c : Client) (r : Request) (b : nat)
    (populated : bool) (id : bucketID) (tr : list event) :
  same_settings c (client_after (Do_send w c r b populated id tr)) /\
  budgets (trace (Do_send w c r b populated id tr)) = budgets tr.
Proof.
  unfold Do_send.
  destruct (prepareBody r) as [bodyReader | e |]; [| split; [repeat split | reflexivity] ..].
  destruct (negb _).
  { cbn [client_after trace]. rewrite budgets_app. cbn [budgets].
    rewrite app_nil_r. repeat split. }
  destruct (transport w) as [resp |].
  - match goal with
    | |- context [Do_response w ?c' r b populated resp ?tr'] =>
        destruct (Do_response_frame w c' r b populated resp tr') as [(H1 & H2 & H3) H4]
    end.
    rewrite H4, budgets_app. cbn [budgets]. rewrite app_nil_r.
    split; [| reflexivity]. unfold same_settings. rewrite H1, H2, H3. repeat split.
  - cbn [client_after trace]. rewrite !budgets_app. cbn [budgets].
    rewrite !app_nil_r. repeat split.
Qed.

Lemma Do_frame (w : World) (c : Client) (r : Request) :
  same_settings c (client_after (Do w c r)) /\
  (budgets (trace (Do w c r)) = [] \/
   budgets (trace (Do w c r)) = [acceptableDelay c (now_Do w)]).
Proof.
  unfold Do.
  destruct (Manager_Bucket _ _ _ _ _) as [[[bucket populated] m] | e |];
    [| split; [repeat split | left; reflexivity] ..].
  destruct (store_at m bucket) as [st |]; [| split; [repeat split | left; reflexivity]].
  destruct (Acquire _ _ st) as [[a id] st'].
  destruct (err a) as [e |].
  - split; [repeat split | right; reflexivity].
  - match goal with
    | |- context [Do_send w ?c' r bucket populated id ?tr'] =>
        destruct (Do_send_frame w c' r bucket populated id tr') as [(H1 & H2 & H3) H4]
    end.
    rewrite H4. split; [| right; reflexivity].
    unfold same_settings. rewrite H1, H2, H3. repeat split.
Qed.

Lemma Do_all_frame (calls : list (World * Request)) :
  forall c : Client, same_settings c (Do_all calls c).
Proof.
  induction calls as [| [w r] rest IH]; intros c; cbn [Do_all].
  - repeat split.
  - destruct (Do_frame w c r) as [(H1 & H2 & H3) _].
    destruct (IH (client_after (Do w c r))) as (G1 & G2 & G3).
    unfold same_settings. rewrite G1, G2, G3, H1, H2, H3. repeat split.
Qed.

(** C6. For a client made by [NewClient], at its first request and at every
    later one, the budget that [Do] hands to [Acquire] is the timeout of the
    HTTP client (the configured one, or ten seconds by default), whatever
    [Config.CancelRequestWhenRateLimited] says: the field [Do] reads is
    false in every such client, so the 200 ms budget is never used. What
    [Do] does is what follows from [Acquire(now, timeout)] on the bucket of
    the route: its error is returned, or its delay is slept and its ticket
    and store go on to the request. *)
Theorem Do_budget_is_http_timeout (now : Z) (conf : Config) (c0 : Client)
    (calls : list (World * Request)) (w : World) (r : Request) :
  fst (NewClient now conf) = Ok c0 ->
  let c := Do_all calls c0 in
  let timeout :=
    match HTTPClient conf with
    | Some h => Timeout h
    | None => 10 * time_Second
    end in
  cancelRequestWhenRateLimited c = false /\
  acceptableDelay c (now_Do w) = timeout /\
  (forall within, In within (budgets (trace (Do w c r))) -> within = timeout) /\
  (forall bucket populated m,
     Manager_Bucket (now_newBucket w) (rateLimitMngr c)
       (RateLimitGroup r) (MajorRateLimitID r) (BucketKey r) = Ok (bucket, populated, m) ->
     store_at m bucket <> None ->
     exists rest, trace (Do w c r) = EvAcquire (now_Do w) timeout :: rest) /\
  (forall bucket populated m st,
     Manager_Bucket (now_newBucket w) (rateLimitMngr c)
       (RateLimitGroup r) (MajorRateLimitID r) (BucketKey r) = Ok (bucket, populated, m) ->
     store_at m bucket = Some st ->
     let out := Acquire (time_Now (now_Do w)) timeout st in
     let held := set_manager (put_store bucket (snd out) m) c in
     Do w c r =
       match err (fst (fst out)) with
       | Some e => mkDone (Err e) held [EvAcquire (now_Do w) timeout]
       | None =>
           Do_send w held r bucket populated (snd (fst out))
             [EvAcquire (now_Do w) timeout; EvSleep (delay (fst (fst out)))]
       end).
Proof.
  intros Hnew c timeout.
  destruct (NewClient_client now conf c0 Hnew) as (Hflag & Hhttp & _).
  destruct (Do_all_frame calls c0) as (Hf & Hh & _). fold c in Hf, Hh.
  assert (Hc : cancelRequestWhenRateLimited c = false) by congruence.
  assert (Hbudget : forall t, acceptableDelay c t = timeout).
  { intros t. unfold acceptableDelay. rewrite Hc, Hh, Hhttp. cbn [negb].
    unfold timeout. destruct (HTTPClient conf); [reflexivity |].
    cbn [Timeout]. lia. }
  assert (Hdo : forall bucket populated m st,
     Manager_Bucket (now_newBucket w) (rateLimitMngr c)
       (RateLimitGroup r) (MajorRateLimitID r) (BucketKey r) = Ok (bucket, populated, m) ->
     store_at m bucket = Some st ->
     Do w c r =
       match err (fst (fst (Acquire (time_Now (now_Do w)) timeout st))) with
       | Some e =>
           mkDone (Err e)
             (set_manager (put_store bucket
                (snd (Acquire (time_Now (now_Do w)) timeout st)) m) c)
             [EvAcquire (now_Do w) timeout]
       | None =>
           Do_send w
             (set_manager (put_store bucket
                (snd (Acquire (time_Now (now_Do w)) timeout st)) m) c)
             r bucket populated (snd (fst (Acquire (time_Now (now_Do w)) timeout st)))
             [EvAcquire (now_Do w) timeout;
              EvSleep (delay (fst (fst (Acquire (time_Now (now_Do w)) timeout st))))]
       end).
  { intros bucket populated m st Hlookup Hstore.
    unfold Do. rewrite Hlookup, Hstore.
    replace (acceptableDelay (set_manager m c) (now_Do w)) with timeout
      by (symmetry; apply Hbudget).
    destruct (Acquire (time_Now (now_Do w)) timeout st) as [[a id] st'].
    cbn [fst snd]. destruct (err a) as [e |]; reflexivity. }
  split; [exact Hc |]. split; [apply Hbudget |]. split; [| split].
  - intros within Hin.
    destruct (Do_frame w c r) as [_ [Hb | Hb]]; rewrite Hb in Hin.
    + destruct Hin.
    + destruct Hin as [<- | []]. apply Hbudget.
  - intros bucket populated m Hlookup Hstore.
    destruct (store_at m bucket) as [st |] eqn:Hst; [| congruence].
    rewrite (Hdo bucket populated m st Hlookup Hst).
    destruct (err _) as [e |].
    + eexists. reflexivity.
    + unfold Do_send, Do_response. repeat break_match; eexists; reflexivity.
  - intros bucket populated m st Hlookup Hstore out held.
    exact (Hdo bucket populated m st Hlookup Hstore).
Qed.

Lemma store_at_put_store (b : nat) (st : store) (m : Manager) :
  store_at (put_store b st m) b = Some st.
Proof.
  unfold store_at, put_store. cbn [heap global].
  rewrite lookup_insert_eq. destruct st; reflexivity.
Qed.

(** A regret right after the acquire refunds: the ticket still names the
    window, so [remaining] of the bucket it points to goes up by one. *)
Lemma RegretAcquire_after_Acquire (now : Time) (within : Z) (st : store) :
  let out := Acquire now within st in
  let ticket := snd (fst out) in
  remaining (ticket_bucket ticket (RegretAcquire ticket (snd out))) =
    wrapU (remaining (ticket_bucket ticket (snd out)) + 1) /\
  RegretAcquire ticket (snd out) <> snd out.
Proof.
  unfold Acquire.
  destruct (active (gbl st)).
  - destruct (acquire now within (gbl st)) as [r g].
    cbn [fst snd]. unfold RegretAcquire, ticket_bucket.
    cbn [id_global id_reset gbl loc]. rewrite decide_True by reflexivity. cbn [gbl].
    split; [reflexivity |].
    intros H. apply (f_equal (fun s => remaining (gbl s))) in H.
    cbn in H. exact (wrapU_succ_ne _ H).
  - destruct (acquire now within (loc st)) as [r b].
    cbn [fst snd]. unfold RegretAcquire, ticket_bucket.
    cbn [id_global id_reset gbl loc]. rewrite decide_True by reflexivity. cbn [loc].
    split; [reflexivity |].
    intros H. apply (f_equal (fun s => remaining (loc s))) in H.
    cbn in H. exact (wrapU_succ_ne _ H).
Qed.

(** C5. With the global bucket inactive, [Acquire(now, within)] returns
    [ErrRateLimited] iff the local bucket, after the refresh step, is limited
    ([reset > now] and [remaining = 0]) and not ([within > 0] and [reset]
    before [now + within]). It returns no other error. With the error come
    [delay = 0] and [rateLimited = true], and [remaining] and the global
    bucket are as before the call. [Do] then returns the error, and its
    trace ends with the acquire: nothing is slept, nothing is sent. *)
Theorem Acquire_ErrRateLimited_iff (now : Time) (within : Z) (st : store) :
  active (gbl st) = false ->
  let b' := update now (loc st) in
  let out := Acquire now within st in
  let r := fst (fst out) in
  (err r = Some ErrRateLimited <->
     (now < reset b' /\ remaining b' = 0) /\
     ~ (0 < within /\ reset b' < now + within))
  /\ (forall e, err r = Some e -> e = ErrRateLimited)
  /\ (err r = Some ErrRateLimited ->
      delay r = 0 /\ rateLimited r = true /\
      remaining (loc (snd out)) = remaining (loc st) /\
      gbl (snd out) = gbl st)
  /\ (forall (w : World) (c : Client) (req : Request) bucket populated m,
        Manager_Bucket (now_newBucket w) (rateLimitMngr c)
          (RateLimitGroup req) (MajorRateLimitID req) (BucketKey req)
          = Ok (bucket, populated, m) ->
        store_at m bucket = Some st ->
        time_Now (now_Do w) = now ->
        acceptableDelay c (now_Do w) = within ->
        err r = Some ErrRateLimited ->
        returned (Do w c req) = Err ErrRateLimited /\
        trace (Do w c req) = [EvAcquire (now_Do w) within] /\
        filter is_send (trace (Do w c req)) = []).
Proof.
  intros Hinactive b' out r.
  assert (Hout : out = (fst (acquire now within (loc st)),
                        mkBucketID false (reset (snd (acquire now within (loc st)))),
                        mkStore (gbl st) (snd (acquire now within (loc st))))).
  { subst out. unfold Acquire. rewrite Hinactive.
    destruct (acquire now within (loc st)); reflexivity. }
  destruct (acquire_ErrRateLimited now within (loc st)) as (Hiff & Honly & Hkeeps).
  cbv zeta in Hiff, Honly, Hkeeps. fold b' in Hiff.
  assert (Hr : r = fst (acquire now within (loc st))).
  { subst r. rewrite Hout. reflexivity. }
  split; [rewrite Hr; exact Hiff |].
  split.
  { intros e He. rewrite Hr in He. destruct Honly as [H | H]; congruence. }
  split.
  { intros He. rewrite Hr in He |- *. rewrite Hout. cbn [snd gbl loc].
    destruct (Hkeeps He) as (H1 & H2 & H3 & _). auto. }
  intros w c req bucket populated m Hlookup Hstore Hnow Hwithin He.
  unfold Do. rewrite Hlookup, Hstore.
  replace (acceptableDelay (set_manager m c) (now_Do w)) with within
    by (rewrite <- Hwithin; reflexivity).
  rewrite Hnow. fold out.
  destruct out as [[a id] st'] eqn:Ho. cbn [fst] in r. subst r.
  rewrite He. repeat split.
Qed.

(** C10. After a successful acquire, [Do] fails on the request body exactly
    when the body is neither nil nor a reader and either the content type is
    not JSON or [json.Marshal] fails. It then returns the error with the
    manager as the acquire left it: the trace has no regret (and no send),
    and the permit stays taken. When [http.NewRequest] or the transport
    fails, the manager is the one after [RegretAcquire(ticket)], which
    differs: the permit is refunded. *)
Theorem Do_body_failure_keeps_permit (w : World) (c : Client) (r : Request)
    (bucket : nat) (populated : bool) (m : Manager) (st : store) :
  Manager_Bucket (now_newBucket w) (rateLimitMngr c)
    (RateLimitGroup r) (MajorRateLimitID r) (BucketKey r) = Ok (bucket, populated, m) ->
  store_at m bucket = Some st ->
  let out := Acquire (time_Now (now_Do w)) (acceptableDelay c (now_Do w)) st in
  let ticket := snd (fst out) in
  let held := put_store bucket (snd out) m in
  let target_url := String.append (url c) (Endpoint r) in
  err (fst (fst out)) = None ->
  ((exists e, prepareBody r = Err e) <->
     exists v, Body r = BodyValue v /\
       (Request_ContentType r <> ContentTypeJSON \/ json_Marshal v = None))
  /\ (forall e, prepareBody r = Err e ->
        returned (Do w c r) = Err e /\
        rateLimitMngr (client_after (Do w c r)) = held /\
        filter is_regret (trace (Do w c r)) = [] /\
        filter is_send (trace (Do w c r)) = [])
  /\ (forall body, prepareBody r = Ok body ->
        http_NewRequest_ok (Method r) target_url = false ->
        (exists e, returned (Do w c r) = Err e) /\
        rateLimitMngr (client_after (Do w c r)) = regret_at bucket ticket held /\
        filter is_regret (trace (Do w c r)) = [EvRegretAcquire ticket])
  /\ (forall body, prepareBody r = Ok body ->
        http_NewRequest_ok (Method r) target_url = true ->
        transport w = None ->
        (exists e, returned (Do w c r) = Err e) /\
        rateLimitMngr (client_after (Do w c r)) = regret_at bucket ticket held /\
        filter is_regret (trace (Do w c r)) = [EvRegretAcquire ticket])
  /\ store_at held bucket = Some (snd out)
  /\ store_at (regret_at bucket ticket held) bucket = Some (RegretAcquire ticket (snd out))
  /\ RegretAcquire ticket (snd out) <> snd out.
Proof.
  intros Hlookup Hstore out ticket held target_url Hok.
  assert (Hheld : store_at held bucket = Some (snd out))
    by apply store_at_put_store.
  assert (Hdo : Do w c r =
                Do_send w (set_manager held (set_manager m c)) r bucket populated ticket
                        [EvAcquire (now_Do w) (acceptableDelay c (now_Do w));
                         EvSleep (delay (fst (fst out)))]).
  { unfold Do. rewrite Hlookup, Hstore.
    change (acceptableDelay (set_manager m c) (now_Do w))
      with (acceptableDelay c (now_Do w)).
    fold out. subst ticket held. destruct out as [[a id] st']. cbn [fst snd] in *.
    rewrite Hok. reflexivity. }
  split.
  { unfold prepareBody, convertStructToIOReader.
    destruct (Body r) as [| content | v]; split.
    - intros [e He]; discriminate.
    - intros (v & Hv & _); discriminate.
    - intros [e He]; discriminate.
    - intros (v & Hv & _); discriminate.
    - intros [e He]. exists v. split; [reflexivity |].
      destruct (String.eqb_spec (Request_ContentType r) ContentTypeJSON) as [E | E];
        [right | left; exact E].
      cbn [negb] in He. destruct (json_Marshal v); [discriminate | reflexivity].
    - intros (v' & [= <-] & [Hct | Hm]).
      + apply String.eqb_neq in Hct. rewrite Hct. eexists; reflexivity.
      + rewrite Hm. destruct (negb _); eexists; reflexivity. }
  split.
  { intros e He. rewrite Hdo. unfold Do_send. rewrite He. repeat split. }
  split.
  { intros body Hb Hnew. rewrite Hdo. unfold Do_send. rewrite Hb.
    cbn [url set_manager]. fold target_url. rewrite Hnew. cbn [negb].
    cbn [returned client_after trace rateLimitMngr set_manager].
    split; [eexists; reflexivity |]. split; reflexivity. }
  split.
  { intros body Hb Hnew Htr. rewrite Hdo. unfold Do_send. rewrite Hb.
    cbn [url set_manager]. fold target_url. rewrite Hnew, Htr. cbn [negb].
    cbn [returned client_after trace rateLimitMngr set_manager set_reqHeader].
    split; [eexists; reflexivity |]. split; reflexivity. }
  split; [exact Hheld |].
  split.
  { unfold regret_at. rewrite Hheld. apply store_at_put_store. }
  exact (proj2 (RegretAcquire_after_Acquire (time_Now (now_Do w))
                  (acceptableDelay c (now_Do w)) st)).
Qed.

End DispatcherProperties.

(** S3, second half: [reset = now + 400ms] and a budget of 200ms. *)
Lemma Acquire_ErrRateLimited_iff_witness :
  let now := time_Now (1536951864 * time_Second) in
  let st := mkStore (newBucket now)
              (mkBucket "" [] false time_zero 1 0
                 (time_Unix0 (now + 400 * time_Millisecond)) 0 0 false) in
  active (gbl st) = false /\
  err (fst (fst (Acquire now (200 * time_Millisecond) st))) = Some ErrRateLimited /\
  delay (fst (fst (Acquire now (200 * time_Millisecond) st))) = 0 /\
  remaining (loc (snd (Acquire now (200 * time_Millisecond) st))) = 0.
Proof.
  set (now := time_Now (1536951864 * time_Second)).
  set (st := mkStore (newBucket now)
               (mkBucket "" [] false time_zero 1 0
                  (time_Unix0 (now + 400 * time_Millisecond)) 0 0 false)).
  assert (Hg : active (gbl st) = false) by reflexivity.
  pose proof (Acquire_ErrRateLimited_iff (Ext := sample_Externals)
                now (200 * time_Millisecond) st Hg) as (Hiff & _ & Hkeeps & _).
  cbv zeta in Hiff, Hkeeps.
  assert (He : err (fst (fst (Acquire now (200 * time_Millisecond) st))) = Some ErrRateLimited).
  { apply Hiff. vm_compute. split; [split; reflexivity |].
    intros [_ H]. discriminate H. }
  destruct (Hkeeps He) as (Hd & _ & Hrem & _).
  cbv zeta. repeat split; assumption.
Defined.

(** A configuration that asks to cancel when rate limited and names no HTTP
    client. A first response leaves the bucket of the route without permits
    and with a window that ends one second after the second request. With a
    budget of 200 ms that request would be refused with [ErrRateLimited];
    [Do] hands the default timeout of ten seconds to [Acquire], sleeps the
    nine seconds it is told, and sends. *)
Lemma Do_budget_is_http_timeout_witness :
  let resp :=
    mkResponse 200
      (Header_Set (Header_Set ∅ XRateLimitRemaining "0") XRateLimitReset "1000000")
      (Some []) in
  let first := (mkWorld 0 0 (Some resp) 0 0 0 0, sample_get) in
  exists c0 st,
    fst (NewClient 0 sample_conf) = Ok c0 /\
    CancelRequestWhenRateLimited sample_conf = true /\
    cancelRequestWhenRateLimited (Do_all [first] c0) = false /\
    acceptableDelay (Do_all [first] c0) (now_Do sample_world) = 10 * time_Second /\
    store_at (rateLimitMngr (Do_all [first] c0)) 0%nat = Some st /\
    err (fst (fst (Acquire (time_Now 0) (200 * time_Millisecond) st)))
      = Some ErrRateLimited /\
    trace (Do sample_world (Do_all [first] c0) sample_get)
      = [EvAcquire 0 (10 * time_Second); EvSleep (9 * time_Second);
         EvSend "GET" "https://discordapp.com/api/v6/channels/42/messages" None;
         EvRegretAcquire (snd (fst (Acquire (time_Now 0) (10 * time_Second) st)))].
Proof.
  intros resp first.
  eexists. eexists.
  split; [reflexivity |]. split; [reflexivity |].
  pose proof (Do_budget_is_http_timeout 0 sample_conf _
                [first] sample_world sample_get eq_refl)
    as (Hflag & Hbudget & _ & _ & Hdo).
  split; [exact Hflag |]. split; [exact Hbudget |].
  split; [vm_compute; reflexivity |].
  split; [vm_compute; reflexivity |].
  erewrite Hdo; [| vm_compute; reflexivity | vm_compute; reflexivity].
  vm_compute. reflexivity.
Defined.

(** A POST on a fresh route whose body [json.Marshal] refuses: the one
    permit of the fresh bucket stays taken. *)
Lemma Do_body_failure_keeps_permit_witness :
  let c := sample_client in
  let w := sample_world in
  let r := sample_post in
  let m :=
    match Manager_Bucket 0 (NewManager 0) GroupChannels 42 "messages" with
    | Ok (_, _, m) => m
    | _ => NewManager 0
    end in
  let st := mkStore (global m) (set_localKeys ["messages"] (newBucket 0)) in
  let out := Acquire (time_Now 0) (10 * time_Second) st in
  Manager_Bucket (now_newBucket w) (rateLimitMngr c) (RateLimitGroup r)
    (MajorRateLimitID r) (BucketKey r) = Ok (0%nat, false, m) /\
  store_at m 0%nat = Some st /\
  err (fst (fst out)) = None /\
  prepareBody r = Err (ErrOther "json.Marshal") /\
  returned (Do w c r) = Err (ErrOther "json.Marshal") /\
  rateLimitMngr (client_after (Do w c r)) = put_store 0%nat (snd out) m /\
  filter is_regret (trace (Do w c r)) = [] /\
  remaining (loc (snd out)) = 0 /\
  remaining (loc (RegretAcquire (snd (fst out)) (snd out))) = 1.
Proof.
  intros c w r m st out.
  assert (H1 : Manager_Bucket (now_newBucket w) (rateLimitMngr c) (RateLimitGroup r)
                 (MajorRateLimitID r) (BucketKey r) = Ok (0%nat, false, m))
    by reflexivity.
  assert (H2 : store_at m 0%nat = Some st) by reflexivity.
  assert (H3 : err (fst (fst (Acquire (time_Now (now_Do w))
                                    (acceptableDelay c (now_Do w)) st))) = None)
    by reflexivity.
  assert (H4 : prepareBody r = Err (ErrOther "json.Marshal")) by reflexivity.
  pose proof (Do_body_failure_keeps_permit w c r 0%nat false m st H1 H2 H3)
    as (_ & Hbody & _).
  destruct (Hbody _ H4) as (Hret & Hmgr & Hreg & _).
  repeat split; try assumption; reflexivity.
Defined.

(* ===================================================================== *)
(** * Further properties *)
(* ===================================================================== *)

(** ** The bucket, beyond the acquire protocol's claims *)

(** X1, one run: [reset = now + 400], [within = 500], so the delay is 100. *)
Lemma acquire_reserve_delay_witness :
  let now := time_Now 0 in
  let b := mkBucket "" [] false time_zero 1 0 (time_Unix0 400) 0 0 false in
  is_int64 500 /\
  limited now (update now b) = true /\
  acquire now 500 b =
    (mkAcquired (now + 500 - reset (update now b)) true None, dec (update now b)) /\
  delay (fst (acquire now 500 b)) = 100.
Proof.
  set (now := time_Now 0).
  set (b := mkBucket "" [] false time_zero 1 0 (time_Unix0 400) 0 0 false).
  assert (H1 : is_int64 500) by (vm_compute; split; discriminate).
  assert (H2 : limited now (update now b) = true) by reflexivity.
  assert (H3 : 0 < 500) by reflexivity.
  assert (H4 : reset (update now b) < now + 500) by reflexivity.
  pose proof (acquire_reserve_delay now 500 b H1 H2 H3 H4) as H.
  split; [exact H1 |]. split; [exact H2 |]. split; [exact H |].
  rewrite H. reflexivity.
Defined.

(** X2. The refresh step never changes whether the bucket is limited at
    [now]: it runs only when the window has ended, and a bucket whose window
    has ended is not limited, before (its reset is not after [now]) or after
    (it has one permit). *)
Theorem update_keeps_limited (now : Time) (b : bucket) :
  limited now (update now b) = limited now b.
Proof.
  destruct (update_cases now b) as [[_ ->] | [(_ & Hexp & ->) | (_ & _ & ->)]];
    try reflexivity.
  unfold limited, Time_After. simpl.
  destruct (Z.ltb_spec now (reset b)); [lia |].
  rewrite andb_false_r. reflexivity.
Qed.

(** X3. The refresh step is idempotent: a second refresh at the same instant
    changes nothing, also when [longestTimeout] in nanoseconds overflows and
    the refreshed window ends before it starts. *)
Theorem update_idempotent (now : Time) (b : bucket) :
  update now (update now b) = update now b.
Proof.
  unfold update at 2.
  destruct (Z.eqb_spec (longestTimeout b) 0) as [H0 | H0].
  - unfold update. destruct (Z.eqb_spec (longestTimeout b) 0); congruence.
  - unfold update. unfold Time_After.
    destruct (Z.ltb_spec now (reset b)) as [Hopen | Hexp]; cbn [negb].
    + cbn [set_lastUpdated longestTimeout reset].
      destruct (Z.eqb_spec (longestTimeout b) 0); [congruence |].
      destruct (Z.ltb_spec now (reset b)); [reflexivity | lia].
    + cbn [set_lastUpdated set_reset set_remaining longestTimeout reset].
      destruct (Z.eqb_spec (longestTimeout b) 0); [congruence |].
      destruct (Z.ltb_spec now (Time_Add now (millis (wrap64 (longestTimeout b)))));
        reflexivity.
Qed.

(** [acquire] in an open window, by [remaining]. *)
Lemma acquire_open_window (now : Time) (within : Z) (b : bucket) :
  is_uint (remaining b) ->
  now < reset b ->
  ~ (0 < within /\ reset b < now + within) ->
  (remaining b <> 0 /\
   fst (acquire now within b) = mkAcquired 0 false None /\
   remaining (snd (acquire now within b)) = remaining b - 1 /\
   reset (snd (acquire now within b)) = reset b)
  \/ (remaining b = 0 /\
      fst (acquire now within b) = mkAcquired 0 true (Some ErrRateLimited) /\
      remaining (snd (acquire now within b)) = 0 /\
      reset (snd (acquire now within b)) = reset b).
Proof.
  intros Hu Hopen Himpatient.
  assert (Hb' : remaining (update now b) = remaining b /\ reset (update now b) = reset b).
  { destruct (update_cases now b) as [[_ ->] | [(_ & Hexp & _) | (_ & _ & ->)]];
      [auto | lia | auto]. }
  destruct Hb' as [Hrem Hres].
  destruct (acquire_cases now within b) as
    [(_ & Hw & Hr & _) | [(Hlim & _ & ->) | (Hlim & ->)]].
  - exfalso. apply Himpatient. rewrite Hres in Hr. auto.
  - right. apply limited_true in Hlim. cbn [fst snd].
    rewrite Hrem in Hlim. rewrite Hrem, Hres. intuition.
  - left. apply limited_false in Hlim. rewrite Hrem, Hres in Hlim.
    assert (Hne : remaining b <> 0) by lia.
    cbn [fst snd]. unfold dec. cbn. rewrite Hrem, Hres.
    repeat split; auto. apply wrapU_id. unfold is_uint in *. lia.
Qed.

(** X4. In an open window (every call is made before the reset) and with
    callers that will not wait for the reset, a bucket grants exactly its
    [remaining] permits: the first [remaining] calls get a permit, every later
    one gets [ErrRateLimited], and [remaining] ends at what was not used. *)
Theorem acquire_all_open_window (calls : list (Time * Z)) (b : bucket) :
  is_uint (remaining b) ->
  Forall (fun c : Time * Z => fst c < reset b /\ ~ (0 < snd c /\ reset b < fst c + snd c)) calls ->
  let out := acquire_all calls b in
  let k := Z.to_nat (Z.min (Z.of_nat (length calls)) (remaining b)) in
  fst out =
    (repeat (mkAcquired 0 false None) k ++
     repeat (mkAcquired 0 true (Some ErrRateLimited)) (length calls - k))%list /\
  remaining (snd out) = remaining b - Z.of_nat k /\
  reset (snd out) = reset b.
Proof.
  revert b. induction calls as [| [now within] rest IH]; intros b Hu Hall.
  - unfold is_uint in Hu. cbn [acquire_all fst snd length].
    replace (Z.to_nat (Z.min (Z.of_nat 0) (remaining b))) with 0%nat by lia.
    cbn. repeat split. lia.
  - inversion Hall as [| c cs [Hopen Himpatient] Hrest]; subst. cbn [fst snd] in *.
    cbn [acquire_all length].
    destruct (acquire now within b) as [r b1] eqn:Hacq.
    destruct (acquire_open_window now within b Hu Hopen Himpatient)
      as [(Hne & Hr & Hrem & Hres) | (Hz & Hr & Hrem & Hres)];
      rewrite Hacq in Hr, Hrem, Hres; cbn [fst snd] in Hr, Hrem, Hres; subst r.
    + assert (Hu1 : is_uint (remaining b1)) by (unfold is_uint in *; lia).
      assert (Hall1 : Forall (fun c : Time * Z => fst c < reset b1 /\
                 ~ (0 < snd c /\ reset b1 < fst c + snd c)) rest)
        by (rewrite Hres; exact Hrest).
      specialize (IH b1 Hu1 Hall1). cbv zeta in IH.
      destruct (acquire_all rest b1) as [rs b2]. cbn [fst snd] in *.
      destruct IH as (Hrs & Hrem2 & Hres2).
      unfold is_uint in Hu.
      replace (Z.to_nat (Z.min (Z.of_nat (S (length rest))) (remaining b)))
        with (S (Z.to_nat (Z.min (Z.of_nat (length rest)) (remaining b1)))) by lia.
      cbn [repeat app Nat.sub]. rewrite Hrs.
      split; [reflexivity |]. split; [lia | congruence].
    + assert (Hu1 : is_uint (remaining b1)) by (unfold is_uint in *; lia).
      assert (Hall1 : Forall (fun c : Time * Z => fst c < reset b1 /\
                 ~ (0 < snd c /\ reset b1 < fst c + snd c)) rest)
        by (rewrite Hres; exact Hrest).
      specialize (IH b1 Hu1 Hall1). cbv zeta in IH.
      destruct (acquire_all rest b1) as [rs b2]. cbn [fst snd] in *.
      destruct IH as (Hrs & Hrem2 & Hres2).
      rewrite Hrem in Hrs, Hrem2. rewrite Hz.
      replace (Z.to_nat (Z.min (Z.of_nat (S (length rest))) 0)) with 0%nat by lia.
      replace (Z.to_nat (Z.min (Z.of_nat (length rest)) 0)) with 0%nat in Hrs, Hrem2 by lia.
      cbn [repeat app] in *. rewrite Nat.sub_0_r in *. rewrite Hrs.
      split; [reflexivity |]. split; [lia | congruence].
Qed.

(** X4, one run: two permits, three impatient callers in the open window. *)
Lemma acquire_all_open_window_witness :
  let b := mkBucket "" [] false time_zero 5 2 (time_Unix0 1000) 0 0 false in
  let calls := [(time_Now 10, 0); (time_Now 20, 100); (time_Now 30, 0)] in
  fst (acquire_all calls b) =
    [mkAcquired 0 false None; mkAcquired 0 false None;
     mkAcquired 0 true (Some ErrRateLimited)] /\
  remaining (snd (acquire_all calls b)) = 0.
Proof.
  set (b := mkBucket "" [] false time_zero 5 2 (time_Unix0 1000) 0 0 false).
  set (calls := [(time_Now 10, 0); (time_Now 20, 100); (time_Now 30, 0)]).
  assert (Hu : is_uint (remaining b)) by (vm_compute; split; discriminate).
  assert (Hall : Forall (fun c : Time * Z => fst c < reset b /\
             ~ (0 < snd c /\ reset b < fst c + snd c)) calls).
  { repeat constructor; cbn; lia. }
  pose proof (acquire_all_open_window calls b Hu Hall) as (H1 & H2 & _).
  split; [exact H1 | exact H2].
Defined.

Lemma set_remaining_back (b : bucket) (n : Z) :
  set_remaining (remaining b) (set_remaining n b) = b.
Proof. destruct b; reflexivity. Qed.

(** X5. A regret right after an acquire that returned no error undoes it:
    the store is the one the refresh step alone would have left (the bucket
    [Acquire] worked on is refreshed, its permit is back, the other bucket
    is untouched). *)
Theorem Acquire_RegretAcquire_roundtrip (now : Time) (within : Z) (st : store) :
  is_uint (remaining (update now (target st))) ->
  err (fst (fst (Acquire now within st))) = None ->
  RegretAcquire (snd (fst (Acquire now within st))) (snd (Acquire now within st)) =
    if active (gbl st)
    then mkStore (update now (gbl st)) (loc st)
    else mkStore (gbl st) (update now (loc st)).
Proof.
  unfold target, Acquire. intros Hu Herr.
  destruct (active (gbl st)) eqn:Hact.
  - destruct (acquire_cases now within (gbl st)) as
      [(_ & _ & _ & H) | [(_ & _ & H) | (_ & H)]];
      rewrite H in Herr |- *; cbn [fst snd err] in *; try discriminate;
      unfold RegretAcquire; cbn [id_global id_reset gbl loc];
      rewrite decide_True by reflexivity; unfold regretAcquire, dec;
      cbn [remaining set_remaining];
      rewrite (wrapU_pred_succ _ Hu); f_equal; apply set_remaining_back.
  - destruct (acquire_cases now within (loc st)) as
      [(_ & _ & _ & H) | [(_ & _ & H) | (_ & H)]];
      rewrite H in Herr |- *; cbn [fst snd err] in *; try discriminate;
      unfold RegretAcquire; cbn [id_global id_reset gbl loc];
      rewrite decide_True by reflexivity; unfold regretAcquire, dec;
      cbn [remaining set_remaining];
      rewrite (wrapU_pred_succ _ Hu); f_equal; apply set_remaining_back.
Qed.

(** X5, one run: a fresh bucket, a permit taken and given back. *)
Lemma Acquire_RegretAcquire_roundtrip_witness :
  let st := mkStore (newBucket 0) (newBucket 0) in
  let now := time_Now 5 in
  RegretAcquire (snd (fst (Acquire now 10 st))) (snd (Acquire now 10 st)) = st.
Proof.
  set (st := mkStore (newBucket 0) (newBucket 0)).
  set (now := time_Now 5).
  assert (Hu : is_uint (remaining (update now (target st))))
    by (vm_compute; split; discriminate).
  assert (He : err (fst (fst (Acquire now 10 st))) = None) by reflexivity.
  exact (Acquire_RegretAcquire_roundtrip now 10 st Hu He).
Defined.



(** X7. While the global bucket is active, [Acquire] is decided by the
    global bucket alone: its results and its ticket do not depend on the
    local bucket, the ticket is a global one, and the local bucket is not
    touched (no permit of the route is taken). *)
Theorem Acquire_global_supremacy (now : Time) (within : Z) (g l1 l2 : bucket) :
  active g = true ->
  fst (Acquire now within (mkStore g l1)) = fst (Acquire now within (mkStore g l2)) /\
  fst (fst (Acquire now within (mkStore g l1))) = fst (acquire now within g) /\
  id_global (snd (fst (Acquire now within (mkStore g l1)))) = true /\
  loc (snd (Acquire now within (mkStore g l1))) = l1.
Proof.
  intros Hact. unfold Acquire. cbn [gbl loc]. rewrite Hact.
  destruct (acquire now within g) as [r g']. cbn. repeat split.
Qed.

(** X7, one run: an active global bucket without permits refuses a caller
    whose own bucket has five. *)
Lemma Acquire_global_supremacy_witness :
  let g := mkBucket "" [] false time_zero 1 0 (time_Unix0 1000) 0 0 true in
  let l := mkBucket "" [] false time_zero 5 5 (time_Unix0 1000) 0 0 false in
  let now := time_Now 0 in
  err (fst (fst (Acquire now 0 (mkStore g l)))) = Some ErrRateLimited /\
  loc (snd (Acquire now 0 (mkStore g l))) = l.
Proof.
  set (g := mkBucket "" [] false time_zero 1 0 (time_Unix0 1000) 0 0 true).
  set (l := mkBucket "" [] false time_zero 5 5 (time_Unix0 1000) 0 0 false).
  set (now := time_Now 0).
  pose proof (Acquire_global_supremacy now 0 g l l eq_refl) as (_ & H2 & _ & H4).
  split; [rewrite H2; reflexivity | exact H4].
Defined.

Lemma hasLocalKey_app (keys : list string) (k k' : string) :
  hasLocalKey (keys ++ [k])%list k' = hasLocalKey keys k' || String.eqb k k'.
Proof.
  induction keys as [| x keys IH]; cbn.
  - destruct (String.eqb k k'); reflexivity.
  - destruct (String.eqb x k'); [reflexivity | exact IH].
Qed.

Lemma hasLocalKey_In (keys : list string) (k : string) :
  hasLocalKey keys k = true <-> In k keys.
Proof.
  induction keys as [| x keys IH]; cbn.
  - split; [discriminate | tauto].
  - destruct (String.eqb_spec x k) as [E | E].
    + split; auto.
    + rewrite IH. split; [auto | intros [H | H]; [congruence | exact H]].
Qed.

(** X8. [AddLocalKey] links the key ([LinkedTo] then answers yes), does not
    change the answer for any other key, changes nothing but the local keys,
    adds nothing when the key is already there, and so never creates a
    duplicate. *)
Theorem AddLocalKey_LinkedTo (k : string) (b : bucket) :
  LinkedTo (AddLocalKey k b) k = true /\
  (forall k', k' <> k -> LinkedTo (AddLocalKey k b) k' = LinkedTo b k') /\
  (LinkedTo b k = true -> AddLocalKey k b = b) /\
  (LinkedTo b k = false -> localKeys (AddLocalKey k b) = (localKeys b ++ [k])%list) /\
  AddLocalKey k (AddLocalKey k b) = AddLocalKey k b /\
  (NoDup (localKeys b) -> NoDup (localKeys (AddLocalKey k b))) /\
  set_localKeys (localKeys b) (AddLocalKey k b) = b.
Proof.
  unfold LinkedTo, AddLocalKey.
  destruct (hasLocalKey (localKeys b) k) eqn:Hk.
  - rewrite Hk. repeat split; auto; try discriminate. destruct b; reflexivity.
  - cbn [localKeys set_localKeys]. rewrite !hasLocalKey_app, Hk, String.eqb_refl.
    cbn [orb]. repeat split; auto; try discriminate.
    + intros k' Hne. rewrite hasLocalKey_app.
      destruct (String.eqb_spec k k'); [congruence |].
      apply orb_false_r.
    + intros Hnd. apply NoDup_app. split; [exact Hnd |]. split.
      * intros x Hx Hin. apply list_elem_of_In in Hx, Hin.
        destruct Hin as [<- | []].
        apply hasLocalKey_In in Hx. congruence.
      * apply NoDup_singleton.
    + destruct b; reflexivity.
Qed.

(** ** UpdateBucket, field by field *)

Section UpdateProperties.
Context `{Ext : Externals}.

(** [UpdateBucket] as a change of the written bucket alone. *)
Lemma UpdateBucket_store_written (clock1 clock2 : Z)
    (header : gmap string (list string)) (st : store) :
  let bu' :=
    flow_end
      (and_then (updateReset (drift clock1 clock2 header) (reset (loc st)) header
                             (written header st)) (fun bu =>
       and_then (updateRemaining header bu) (fun bu =>
       and_then (updateLimit header bu) (fun bu =>
       updateKey header bu)))) in
  UpdateBucket_store clock1 clock2 header st =
    (if to_global header then mkStore bu' (loc st) else mkStore (gbl st) bu') /\
  written header (UpdateBucket_store clock1 clock2 header st) = bu'.
Proof.
  unfold UpdateBucket_store, written, drift, to_global.
  destruct (String.eqb (Header_Get header XRateLimitGlobal) "true"); split; reflexivity.
Qed.

Ltac flow_cases :=
  unfold updateReset, updateRemaining, updateLimit, updateKey;
  repeat (first
    [ match goal with |- context [ParseInt ?s] => destruct (ParseInt s) eqn:? end
    | match goal with |- context [String.eqb ?a ""] => destruct (String.eqb a "") eqn:? end
    | match goal with
      | |- context [if (?c && ?d)%bool then _ else _] => destruct (c && d)%bool eqn:?
      end ];
    cbn [negb and_then flow_end]).

(** X9. [UpdateBucket] writes one bucket, the global one iff
    [X-RateLimit-Global] is [true], and leaves the other as it was. In the
    bucket it writes, no header ever changes [active], [invalid],
    [lastUpdated], [shortestTimeout] or the local keys: in particular a
    global rate limit reported by the server does not make the global bucket
    active. *)
Theorem UpdateBucket_store_frame (clock1 clock2 : Z)
    (header : gmap string (list string)) (st : store) :
  let st' := UpdateBucket_store clock1 clock2 header st in
  (if to_global header then loc st' = loc st else gbl st' = gbl st) /\
  same_dormant (gbl st) (gbl st') /\
  same_dormant (loc st) (loc st').
Proof.
  destruct (UpdateBucket_store_written clock1 clock2 header st) as [-> _].
  assert (Hd : forall d o bu,
            same_dormant bu
              (flow_end
                 (and_then (updateReset d o header bu) (fun bu =>
                  and_then (updateRemaining header bu) (fun bu =>
                  and_then (updateLimit header bu) (fun bu =>
                  updateKey header bu)))))).
  { intros d o bu. flow_cases; cbn; repeat split. }
  unfold written.
  destruct (to_global header); cbn [gbl loc];
    (split; [reflexivity |]); split; try (repeat split; fail); apply Hd.
Qed.


Lemma Time_Sub_cases (t u : Z) :
  (- 2 ^ 63 <= t - u <= 2 ^ 63 - 1 /\ Time_Sub t u = t - u)
  \/ (t - u < - 2 ^ 63 /\ Time_Sub t u = - 2 ^ 63)
  \/ (2 ^ 63 - 1 < t - u /\ Time_Sub t u = 2 ^ 63 - 1).
Proof.
  unfold Time_Sub, minInt64, maxInt64.
  destruct (Z.leb_spec (- 2 ^ 63) (t - u)); destruct (Z.leb_spec (t - u) (2 ^ 63 - 1));
    cbn [andb]; try (left; split; [lia | reflexivity]);
    destruct (Z.ltb_spec t u); try lia;
    first [ right; left; split; [lia | reflexivity]
          | right; right; split; [lia | reflexivity] ].
Qed.

Lemma later_headers_keep (header : gmap string (list string)) (bu : bucket) :
  let b' :=
    flow_end
      (and_then (updateRemaining header bu) (fun bu =>
       and_then (updateLimit header bu) (fun bu => updateKey header bu))) in
  longestTimeout b' = longestTimeout bu /\ reset b' = reset bu.
Proof. flow_cases; cbn; split; reflexivity. Qed.

Lemma updateReset_longestTimeout (d old : Z) (header : gmap string (list string))
    (bu : bucket) :
  let b1 := flow_end (updateReset d old header bu) in
  (Header_Get header XRateLimitReset = "" -> b1 = bu) /\
  (ParseInt (Header_Get header XRateLimitReset) = None -> b1 = bu) /\
  (forall epoch,
     ParseInt (Header_Get header XRateLimitReset) = Some epoch ->
     let new := wrap64 (epoch + d) in
     let ms := wrapU (Z.quot (Time_Sub new old) time_Millisecond) in
     reset b1 = time_Unix0 new /\
     longestTimeout b1 =
       if negb (new =? old) && (longestTimeout bu <? ms) then ms
       else longestTimeout bu).
Proof.
  unfold updateReset. split; [| split].
  - intros ->. reflexivity.
  - intros Hp. rewrite Hp. destruct (negb _); reflexivity.
  - intros epoch Hp. rewrite Hp.
    assert (Hne : String.eqb (Header_Get header XRateLimitReset) "" = false).
    { destruct (Header_Get header XRateLimitReset); [discriminate Hp | reflexivity]. }
    rewrite Hne. cbn [negb]. unfold time_Unix0, Duration_Nanoseconds, Time_Equal.
    cbn [reset set_reset longestTimeout instant].
    destruct (negb _ && _); cbn; split; reflexivity.
Qed.

(** X11. [UpdateBucket] never lowers [longestTimeout] of the bucket it
    writes, and leaves it alone without an [X-RateLimit-Reset]. When the new
    reset is not before the old one, [longestTimeout] becomes the larger of
    its value and the distance between the two in whole milliseconds. When
    the new reset is at least a millisecond before the old one, the negative
    distance is converted to [uint], and [longestTimeout] jumps to at least
    [2^64 - 9223372036854]. *)
Theorem UpdateBucket_store_longestTimeout (clock1 clock2 : Z)
    (header : gmap string (list string)) (st : store) :
  let bu := written header st in
  let bu' := written header (UpdateBucket_store clock1 clock2 header st) in
  let old := reset (loc st) in
  longestTimeout bu <= longestTimeout bu'
  /\ (Header_Get header XRateLimitReset = "" -> longestTimeout bu' = longestTimeout bu)
  /\ (forall epoch,
        ParseInt (Header_Get header XRateLimitReset) = Some epoch ->
        let new := wrap64 (epoch + drift clock1 clock2 header) in
        reset bu' = time_Unix0 new /\
        (is_uint (longestTimeout bu) -> old <= new ->
         longestTimeout bu' =
           Z.max (longestTimeout bu) (Z.quot (Time_Sub new old) time_Millisecond)) /\
        (new + time_Millisecond <= old ->
         2 ^ 64 - 9223372036854 <= longestTimeout bu')).
Proof.
  intros bu bu' old. subst bu'.
  destruct (UpdateBucket_store_written clock1 clock2 header st) as [_ ->].
  fold bu. fold old.
  set (d := drift clock1 clock2 header).
  pose proof (updateReset_longestTimeout d old header bu) as (Habsent & Hbad & Hgood).
  cbv zeta in Hgood.
  destruct (updateReset d old header bu) as [b1 | b1] eqn:Hstep; cbn [and_then flow_end] in *.
  - pose proof (later_headers_keep header b1) as [Hlt Hres]. cbv zeta in Hlt, Hres.
    rewrite Hlt, Hres. clear Hlt Hres.
    destruct (ParseInt (Header_Get header XRateLimitReset)) as [epoch |] eqn:Hp.
    + destruct (Hgood epoch eq_refl) as [Hr Hl]. clear Hgood.
      set (new := wrap64 (epoch + d)) in *.
      assert (Hsub : - 2 ^ 63 <= Time_Sub new old <= 2 ^ 63 - 1).
      { destruct (Time_Sub_cases new old) as [[? ->] | [[? ->] | [? ->]]]; lia. }
      unfold minInt64, maxInt64, time_Millisecond in *.
      assert (Hms : is_uint (wrapU (Time_Sub new old ÷ 1000000))) by apply wrapU_is_uint.
      unfold is_uint in Hms. rewrite maxUint_eq in Hms.
      split; [| split].
      * rewrite Hl. destruct (negb _ && _) eqn:E; [| lia].
        apply andb_true_iff in E as [_ E]. apply Z.ltb_lt in E. lia.
      * intros Habs. rewrite Habs in Hp. discriminate Hp.
      * intros e [= <-]. fold new. split; [exact Hr |]. split.
        -- intros Hu Hle. unfold is_uint in Hu.
           assert (Hq : 0 <= Time_Sub new old ÷ 1000000 <= 9223372036854).
           { assert (0 <= Time_Sub new old).
             { destruct (Time_Sub_cases new old) as [[? ->] | [[? ->] | [? ->]]]; lia. }
             split; [apply Z.quot_pos; lia |].
             assert (Hm : Time_Sub new old ÷ 1000000 <= (2 ^ 63 - 1) ÷ 1000000)
               by (apply Z.quot_le_mono; lia).
             replace ((2 ^ 63 - 1) ÷ 1000000) with 9223372036854 in Hm by reflexivity.
             exact Hm. }
           assert (Hw : wrapU (Time_Sub new old ÷ 1000000) = Time_Sub new old ÷ 1000000).
           { apply wrapU_id. unfold is_uint. rewrite maxUint_eq. lia. }
           rewrite Hl, Hw.
           destruct (Z.eqb_spec new old) as [Heq | Hneq]; cbn [negb andb].
           ++ subst new. rewrite Heq in *.
              assert (Hz : Time_Sub old old = 0).
              { destruct (Time_Sub_cases old old) as [[? ->] | [[? ->] | [? ->]]]; lia. }
              rewrite Hz. replace (0 ÷ 1000000) with 0 by reflexivity. lia.
           ++ destruct (Z.ltb_spec (longestTimeout bu) (Time_Sub new old ÷ 1000000)); lia.
        -- intros Hback.
           assert (Hneg : Time_Sub new old <= -1000000).
           { destruct (Time_Sub_cases new old) as [[? ->] | [[? ->] | [? ->]]]; lia. }
           assert (Hq : -9223372036854 <= Time_Sub new old ÷ 1000000 <= -1).
           { rewrite <- (Z.opp_involutive (Time_Sub new old)).
             rewrite Z.quot_opp_l by lia.
             assert (1 <= (- Time_Sub new old) ÷ 1000000).
             { apply Z.quot_le_lower_bound; lia. }
             assert (Hm : (- Time_Sub new old) ÷ 1000000 <= 2 ^ 63 ÷ 1000000)
               by (apply Z.quot_le_mono; lia).
             replace (2 ^ 63 ÷ 1000000) with 9223372036854 in Hm by reflexivity.
             lia. }
           assert (Hw : wrapU (Time_Sub new old ÷ 1000000) =
                        two64 + Time_Sub new old ÷ 1000000).
           { unfold wrapU. rewrite two64_eq.
             symmetry. apply Z.mod_unique with (q := -1); lia. }
           rewrite Hl, Hw, two64_eq.
           change (2 ^ 64) with 18446744073709551616.
           assert (Hnew : new <> old) by lia.
           set (q := Time_Sub new old ÷ 1000000) in *. clearbody q.
           destruct (Z.eqb_spec new old) as [| _]; [contradiction |]. cbn [negb andb].
           destruct (Z.ltb_spec (longestTimeout bu) (18446744073709551616 + q)); lia.
    + assert (Hb1 : b1 = bu) by (apply Hbad; reflexivity).
      subst b1. split; [lia |]. split; [reflexivity |]. intros e He. discriminate He.
  - (* the reset header was malformed: nothing was written *)
    destruct (ParseInt (Header_Get header XRateLimitReset)) as [epoch |] eqn:Hp.
    + exfalso. unfold updateReset in Hstep. rewrite Hp in Hstep.
      destruct (negb _); [| discriminate Hstep].
      destruct (negb _ && _); discriminate Hstep.
    + assert (Hb1 : b1 = bu) by (apply Hbad; reflexivity).
      subst b1. split; [lia |]. split; [reflexivity |]. intros e He. discriminate He.
Qed.

(** X12. When the four rate-limit headers are present and the three numbers
    are decimal integers, the bucket [UpdateBucket] writes ends with
    [remaining] and [limit] as the headers say (converted to [uint], so a
    negative number wraps around), the server's bucket key, and the reset of
    [UpdateBucket_store_reset]. *)
Theorem UpdateBucket_store_applies_headers (clock1 clock2 epoch n l : Z)
    (header : gmap string (list string)) (st : store) :
  ParseInt (Header_Get header XRateLimitReset) = Some epoch ->
  ParseInt (Header_Get header XRateLimitRemaining) = Some n ->
  ParseInt (Header_Get header XRateLimitLimit) = Some l ->
  Header_Get header XRateLimitBucket <> "" ->
  let bu' := written header (UpdateBucket_store clock1 clock2 header st) in
  reset bu' = time_Unix0 (wrap64 (epoch + drift clock1 clock2 header)) /\
  remaining bu' = wrapU n /\
  limit bu' = wrapU l /\
  key bu' = Header_Get header XRateLimitBucket /\
  (0 <= n -> remaining bu' = n) /\
  (n < 0 -> remaining bu' = 2 ^ 64 + n).
Proof.
  intros Hr Hn Hl Hk bu'. subst bu'.
  destruct (UpdateBucket_store_written clock1 clock2 header st) as [_ ->].
  assert (Hne : forall name z, ParseInt (Header_Get header name) = Some z ->
                String.eqb (Header_Get header name) "" = false).
  { intros name z H. destruct (Header_Get header name); [discriminate H | reflexivity]. }
  apply String.eqb_neq in Hk.
  unfold updateReset, updateRemaining, updateLimit, updateKey.
  rewrite (Hne _ _ Hr), (Hne _ _ Hn), (Hne _ _ Hl), Hk, Hr, Hn, Hl.
  cbn [negb]. unfold time_Unix0, Duration_Nanoseconds.
  assert (Hrange : is_int64 n).
  { unfold ParseInt in Hn.
    destruct (Header_Get header XRateLimitRemaining) as [| c rest]; [discriminate |].
    destruct (NilZero.uint_of_string _) as [u |]; [| discriminate].
    pose proof (Pos2Z.is_nonneg 1).
    assert (0 <= Z.of_uint u) by (unfold Z.of_uint; apply N2Z.is_nonneg).
    unfold is_int64, minInt64, maxInt64.
    destruct (Ascii.eqb c "-").
    - destruct (Z.leb_spec (Z.of_uint u) (2 ^ 63)); [| discriminate].
      injection Hn as <-. lia.
    - destruct (Z.ltb_spec (Z.of_uint u) (2 ^ 63)); [| discriminate].
      injection Hn as <-. lia. }
  unfold is_int64, minInt64, maxInt64 in Hrange.
  destruct (negb _ && _); cbn [and_then flow_end reset remaining limit key
    set_key set_limit set_remaining set_reset set_longestTimeout];
    (repeat split; try reflexivity;
     [ intros Hpos; apply wrapU_id; unfold is_uint; rewrite maxUint_eq; lia
     | intros Hneg; unfold wrapU; rewrite two64_eq;
       symmetry; apply Z.mod_unique with (q := -1); lia ]).
Qed.

End UpdateProperties.

(** X12, one run (scenario S1 of the design): limit 5, remaining 4, bucket
    [xyz]. *)
Lemma UpdateBucket_store_applies_headers_witness :
  let header :=
    Header_Set (Header_Set (Header_Set (Header_Set ∅
      XRateLimitReset "1536951869000")
      XRateLimitRemaining "4")
      XRateLimitLimit "5")
      XRateLimitBucket "xyz" in
  let st := mkStore (newBucket 0) (newBucket 0) in
  remaining (loc (UpdateBucket_store 7 7 header st)) = 4 /\
  limit (loc (UpdateBucket_store 7 7 header st)) = 5 /\
  key (loc (UpdateBucket_store 7 7 header st)) = "xyz".
Proof.
  intros header st.
  assert (H1 : ParseInt (Header_Get header XRateLimitReset) = Some 1536951869000)
    by (vm_compute; reflexivity).
  assert (H2 : ParseInt (Header_Get header XRateLimitRemaining) = Some 4)
    by (vm_compute; reflexivity).
  assert (H3 : ParseInt (Header_Get header XRateLimitLimit) = Some 5)
    by (vm_compute; reflexivity).
  assert (H4 : Header_Get header XRateLimitBucket <> "")
    by (vm_compute; discriminate).
  pose proof (UpdateBucket_store_applies_headers 7 7 _ _ _ header st H1 H2 H3 H4)
    as (_ & Hrem & Hlim & Hkey & _).
  cbv zeta in Hrem, Hlim, Hkey.
  assert (Hg : to_global header = false) by (vm_compute; reflexivity).
  unfold written in Hrem, Hlim, Hkey. rewrite Hg in Hrem, Hlim, Hkey.
  split; [rewrite Hrem; reflexivity |].
  split; [rewrite Hlim; reflexivity |].
  rewrite Hkey. vm_compute. reflexivity.
Defined.

(** X25, one run: no date header, equal clock readings, so the header's
    number is stored as nanoseconds. *)
Lemma UpdateBucket_store_reset_witness :
  let header := Header_Set ∅ XRateLimitReset "1536951869000" in
  let st := mkStore (newBucket 0) (newBucket 0) in
  reset (loc (UpdateBucket_store 7 7 header st)) = time_Unix0 1536951869000.
Proof.
  intros header st.
  assert (H1 : ParseInt (Header_Get header XRateLimitReset) = Some 1536951869000)
    by (vm_compute; reflexivity).
  pose proof (UpdateBucket_store_reset 7 7 1536951869000 header st H1) as H.
  cbv zeta in H.
  replace (String.eqb (Header_Get header XRateLimitGlobal) "true") with false in H
    by (vm_compute; reflexivity).
  cbv beta iota in H. rewrite H. vm_compute. reflexivity.
Defined.

(** ** The header normaliser, beyond the synthesis of the reset *)

Lemma only_rate_limit_keys_refl (h : gmap string (list string)) :
  only_rate_limit_keys h h.
Proof. intros k _ _ _. reflexivity. Qed.

Lemma only_rate_limit_keys_trans (h1 h2 h3 : gmap string (list string)) :
  only_rate_limit_keys h1 h2 -> only_rate_limit_keys h2 h3 ->
  only_rate_limit_keys h1 h3.
Proof. intros H12 H23 k Hr Ha Hg. rewrite (H23 k Hr Ha Hg). apply H12; assumption. Qed.

Lemma only_rate_limit_keys_Set (h : gmap string (list string)) (name v : string) :
  name = XRateLimitReset \/ name = XRateLimitResetAfter \/ name = XRateLimitGlobal ->
  only_rate_limit_keys h (Header_Set h name v).
Proof.
  intros Hname k Hr Ha Hg. unfold Header_Set.
  apply lookup_insert_ne. destruct Hname as [-> | [-> | ->]]; congruence.
Qed.

Section NormaliserFurther.
Context `{Ext : Externals}.

Lemma correctResetAfter_frame (h h' : gmap string (list string)) :
  correctResetAfter h = Ok h' ->
  only_rate_limit_keys h h' /\
  Header_Get h' XRateLimitReset = Header_Get h XRateLimitReset /\
  Header_Get h' RateLimitRetryAfter = Header_Get h RateLimitRetryAfter /\
  Header_Get h' XRateLimitGlobal = Header_Get h XRateLimitGlobal.
Proof.
  unfold correctResetAfter.
  destruct (negb _); [destruct (ParseFloat_millis _) |]; intros [= <-];
    rewrite ?(Header_Get_Set_ne h XRateLimitResetAfter XRateLimitReset) by distinct_keys;
    rewrite ?(Header_Get_Set_ne h XRateLimitResetAfter RateLimitRetryAfter) by distinct_keys;
    rewrite ?(Header_Get_Set_ne h XRateLimitResetAfter XRateLimitGlobal) by distinct_keys;
    repeat split; auto using only_rate_limit_keys_refl.
  apply only_rate_limit_keys_Set. auto.
Qed.

Lemma correctFromBody_frame (statusCode : Z) (body : list byte)
    (h h' : gmap string (list string)) :
  correctFromBody statusCode body h = Ok h' ->
  only_rate_limit_keys h h' /\
  Header_Get h' XRateLimitReset = Header_Get h XRateLimitReset /\
  Header_Get h' RateLimitRetryAfter = Header_Get h RateLimitRetryAfter /\
  Header_Get h' XRateLimitGlobal =
    match json_Unmarshal body with
    | Unmarshalled v =>
        if (statusCode =? StatusTooManyRequests) && Global v then "true"
        else Header_Get h XRateLimitGlobal
    | _ => Header_Get h XRateLimitGlobal
    end.
Proof.
  unfold correctFromBody.
  destruct (statusCode =? StatusTooManyRequests); cbn [andb].
  - destruct (json_Unmarshal body) as [| | v]; try discriminate.
    destruct (Global v), (0 <? RetryAfter v); intros [= <-];
      repeat (rewrite ?Header_Get_Set_eq;
              rewrite ?(Header_Get_Set_ne _ XRateLimitResetAfter XRateLimitReset) by distinct_keys;
              rewrite ?(Header_Get_Set_ne _ XRateLimitResetAfter RateLimitRetryAfter) by distinct_keys;
              rewrite ?(Header_Get_Set_ne _ XRateLimitResetAfter XRateLimitGlobal) by distinct_keys;
              rewrite ?(Header_Get_Set_ne _ XRateLimitGlobal XRateLimitReset) by distinct_keys;
              rewrite ?(Header_Get_Set_ne _ XRateLimitGlobal RateLimitRetryAfter) by distinct_keys);
      repeat split; auto using only_rate_limit_keys_refl;
      repeat (eapply only_rate_limit_keys_trans;
              [| apply only_rate_limit_keys_Set; auto]);
      apply only_rate_limit_keys_refl.
  - intros [= <-]. destruct (json_Unmarshal body);
      repeat split; auto using only_rate_limit_keys_refl.
Qed.

Lemma correctRetryAfter_frame (h : gmap string (list string)) :
  only_rate_limit_keys h (correctRetryAfter h) /\
  Header_Get (correctRetryAfter h) XRateLimitReset = Header_Get h XRateLimitReset /\
  Header_Get (correctRetryAfter h) XRateLimitGlobal = Header_Get h XRateLimitGlobal.
Proof.
  unfold correctRetryAfter.
  destruct (negb _);
    rewrite ?(Header_Get_Set_ne h XRateLimitResetAfter XRateLimitReset) by distinct_keys;
    rewrite ?(Header_Get_Set_ne h XRateLimitResetAfter XRateLimitGlobal) by distinct_keys;
    repeat split; auto using only_rate_limit_keys_refl.
  apply only_rate_limit_keys_Set. auto.
Qed.

Lemma correctReset_frame (h h' : gmap string (list string)) :
  correctReset h = Ok h' ->
  only_rate_limit_keys h h' /\
  Header_Get h' XRateLimitGlobal = Header_Get h XRateLimitGlobal /\
  Header_Get h' XRateLimitReset =
    if String.eqb (Header_Get h XRateLimitReset) "" then ""
    else match ParseFloat_millis (Header_Get h XRateLimitReset) with
         | Some ms => FormatInt ms
         | None => ""
         end.
Proof.
  unfold correctReset.
  destruct (String.eqb_spec (Header_Get h XRateLimitReset) "") as [E | E]; cbn [negb].
  - intros [= <-]. repeat split; auto using only_rate_limit_keys_refl.
  - destruct (ParseFloat_millis _); intros [= <-].
    rewrite Header_Get_Set_eq.
    rewrite (Header_Get_Set_ne h XRateLimitReset XRateLimitGlobal) by distinct_keys.
    repeat split. apply only_rate_limit_keys_Set. auto.
Qed.

Lemma synthesiseReset_frame (timestamp : Z) (h h' : gmap string (list string)) :
  synthesiseReset timestamp h = Ok h' ->
  only_rate_limit_keys h h' /\
  Header_Get h' XRateLimitGlobal = Header_Get h XRateLimitGlobal /\
  (Header_Get h XRateLimitReset <> "" -> h' = h).
Proof.
  unfold synthesiseReset.
  destruct (String.eqb_spec (Header_Get h XRateLimitReset) "") as [E | E].
  - destruct (negb _); [destruct (ParseInt _) |]; intros [= <-];
      rewrite ?(Header_Get_Set_ne h XRateLimitReset XRateLimitGlobal) by distinct_keys;
      repeat split; auto using only_rate_limit_keys_refl; try congruence.
    apply only_rate_limit_keys_Set. auto.
  - intros [= <-]. repeat split; auto using only_rate_limit_keys_refl.
Qed.

(** The normaliser as its five steps. *)
Lemma CorrectDiscordHeader_steps (clock statusCode : Z)
    (header : gmap string (list string)) (body : list byte)
    (h' : gmap string (list string)) :
  CorrectDiscordHeader clock statusCode header body = Ok h' ->
  exists h1 h2 h4,
    correctResetAfter header = Ok h1 /\
    correctFromBody statusCode body h1 = Ok h2 /\
    correctReset (correctRetryAfter h2) = Ok h4 /\
    synthesiseReset
      (match HeaderToTime header with Some t => t | None => clock end) h4 = Ok h'.
Proof.
  unfold CorrectDiscordHeader.
  destruct (correctResetAfter header) as [h1 | |] eqn:E1; cbn [result_bind];
    try discriminate.
  destruct (correctFromBody statusCode body h1) as [h2 | |] eqn:E2; cbn [result_bind];
    try discriminate.
  destruct (correctReset (correctRetryAfter h2)) as [h4 | |] eqn:E4; cbn [result_bind];
    try discriminate.
  intros H. exists h1, h2, h4. repeat split; assumption.
Qed.

(** X13. The normaliser writes under three keys only, [X-RateLimit-Reset],
    [X-RateLimit-Reset-After] and [X-RateLimit-Global]: every other entry of
    the header map ([Date], [Retry-After], limit, remaining, bucket,
    [Content-Encoding], ...) comes out as it went in. *)
Theorem CorrectDiscordHeader_frame (clock statusCode : Z)
    (header : gmap string (list string)) (body : list byte)
    (h' : gmap string (list string)) (k : string) :
  CorrectDiscordHeader clock statusCode header body = Ok h' ->
  k <> CanonicalMIMEHeaderKey XRateLimitReset ->
  k <> CanonicalMIMEHeaderKey XRateLimitResetAfter ->
  k <> CanonicalMIMEHeaderKey XRateLimitGlobal ->
  h' !! k = header !! k.
Proof.
  intros Hok.
  destruct (CorrectDiscordHeader_steps _ _ _ _ _ Hok) as (h1 & h2 & h4 & S1 & S2 & S4 & S5).
  apply correctResetAfter_frame in S1 as (F1 & _).
  apply correctFromBody_frame in S2 as (F2 & _).
  pose proof (correctRetryAfter_frame h2) as (F3 & _).
  apply correctReset_frame in S4 as (F4 & _).
  apply synthesiseReset_frame in S5 as (F5 & _).
  revert k.
  exact (only_rate_limit_keys_trans _ _ _
           (only_rate_limit_keys_trans _ _ _
              (only_rate_limit_keys_trans _ _ _
                 (only_rate_limit_keys_trans _ _ _ F1 F2) F3) F4) F5).
Qed.

(** X14. A response without [X-RateLimit-Reset], [X-RateLimit-Reset-After]
    and [Retry-After], and whose status is not 429, goes through the
    normaliser unchanged and without an error, whatever its date header. *)
Theorem CorrectDiscordHeader_no_rate_limit_headers (clock statusCode : Z)
    (header : gmap string (list string)) (body : list byte) :
  Header_Get header XRateLimitReset = "" ->
  Header_Get header XRateLimitResetAfter = "" ->
  Header_Get header RateLimitRetryAfter = "" ->
  statusCode <> StatusTooManyRequests ->
  CorrectDiscordHeader clock statusCode header body = Ok header.
Proof.
  intros Hr Ha Hra Hs.
  unfold CorrectDiscordHeader, correctResetAfter. rewrite Ha. cbn [String.eqb negb result_bind].
  unfold correctFromBody. destruct (Z.eqb_spec statusCode StatusTooManyRequests); [congruence |].
  cbn [result_bind]. unfold correctRetryAfter. rewrite Hra. cbn [String.eqb negb].
  unfold correctReset. rewrite Hr. cbn [String.eqb negb result_bind].
  unfold synthesiseReset. rewrite Hr, Ha. reflexivity.
Qed.

(** X15. When the server sends [X-RateLimit-Reset] (fractional epoch
    seconds), the output reset is that value in integer milliseconds:
    neither [X-RateLimit-Reset-After] nor [Retry-After] nor the date take
    part. The call succeeds whenever [X-RateLimit-Reset-After] is absent or
    parses as a float and the body of a 429 decodes. *)
Theorem CorrectDiscordHeader_reset_present (clock statusCode : Z)
    (header : gmap string (list string)) (body : list byte) (ms : Z)
    (v : RateLimitResponseStructure) :
  Header_Get header XRateLimitReset <> "" ->
  ParseFloat_millis (Header_Get header XRateLimitReset) = Some ms ->
  (Header_Get header XRateLimitResetAfter = "" \/
   ParseFloat_millis (Header_Get header XRateLimitResetAfter) <> None) ->
  (statusCode = StatusTooManyRequests -> json_Unmarshal body = Unmarshalled v) ->
  exists h',
    CorrectDiscordHeader clock statusCode header body = Ok h' /\
    Header_Get h' XRateLimitReset = FormatInt ms.
Proof.
  intros Hne Hms Hafter Hbody.
  unfold CorrectDiscordHeader.
  assert (H1 : exists h1, correctResetAfter header = Ok h1).
  { unfold correctResetAfter. destruct Hafter as [-> | Hp].
    - eexists; reflexivity.
    - destruct (negb _); [| eexists; reflexivity].
      destruct (ParseFloat_millis (Header_Get header XRateLimitResetAfter));
        [eexists; reflexivity | congruence]. }
  destruct H1 as [h1 S1]. rewrite S1. cbn [result_bind].
  destruct (correctResetAfter_frame _ _ S1) as (_ & R1 & _).
  destruct (correctFromBody_decoded statusCode body h1 v Hbody) as (h2 & S2 & R2 & _).
  rewrite S2. cbn [result_bind].
  destruct (correctRetryAfter_frame h2) as (_ & R3 & _).
  assert (Hreset : Header_Get (correctRetryAfter h2) XRateLimitReset =
                   Header_Get header XRateLimitReset) by congruence.
  unfold correctReset. rewrite Hreset.
  apply String.eqb_neq in Hne. rewrite Hne, Hms. cbn [negb result_bind].
  unfold synthesiseReset. rewrite Header_Get_Set_eq, FormatInt_nonempty.
  eexists. split; [reflexivity | apply Header_Get_Set_eq].
Qed.

Lemma headers_keep_dormant (d old : Z) (header : gmap string (list string)) (bu : bucket) :
  same_dormant bu
    (flow_end
       (and_then (updateReset d old header bu) (fun bu =>
        and_then (updateRemaining header bu) (fun bu =>
        and_then (updateLimit header bu) (fun bu =>
        updateKey header bu))))).
Proof.
  unfold updateReset, updateRemaining, updateLimit, updateKey.
  repeat (first
    [ match goal with |- context [ParseInt ?s] => destruct (ParseInt s) eqn:? end
    | match goal with |- context [String.eqb ?a ""] => destruct (String.eqb a "") eqn:? end
    | match goal with
      | |- context [if (?c && ?d)%bool then _ else _] => destruct (c && d)%bool eqn:?
      end ];
    cbn [negb and_then flow_end]); cbn; repeat split.
Qed.

(** X16. A 429 whose body says [global: true]: the normalised header carries
    [X-RateLimit-Global: true], and [UpdateBucket] with it writes the global
    bucket, leaves the bucket of the route as it was, and leaves the global
    bucket's [active] flag as it was. *)
Theorem global_429_updates_global_bucket (clock clock1 clock2 : Z)
    (header : gmap string (list string)) (body : list byte)
    (v : RateLimitResponseStructure) (h' : gmap string (list string)) (st : store) :
  json_Unmarshal body = Unmarshalled v ->
  Global v = true ->
  CorrectDiscordHeader clock StatusTooManyRequests header body = Ok h' ->
  Header_Get h' XRateLimitGlobal = "true" /\
  loc (UpdateBucket_store clock1 clock2 h' st) = loc st /\
  active (gbl (UpdateBucket_store clock1 clock2 h' st)) = active (gbl st).
Proof.
  intros Hbody Hglobal Hok.
  destruct (CorrectDiscordHeader_steps _ _ _ _ _ Hok) as (h1 & h2 & h4 & S1 & S2 & S4 & S5).
  apply correctFromBody_frame in S2 as (_ & _ & _ & G2).
  rewrite Hbody, Hglobal in G2. cbn in G2.
  pose proof (correctRetryAfter_frame h2) as (_ & _ & G3).
  apply correctReset_frame in S4 as (_ & G4 & _).
  apply synthesiseReset_frame in S5 as (_ & G5 & _).
  assert (Hg : Header_Get h' XRateLimitGlobal = "true") by congruence.
  split; [exact Hg |].
  destruct (UpdateBucket_store_written clock1 clock2 h' st) as [-> _].
  unfold to_global, written, to_global. rewrite Hg. cbn [String.eqb Ascii.eqb gbl loc].
  replace (String.eqb "true" "true") with true by reflexivity.
  cbn [gbl loc]. split; [reflexivity |].
  apply headers_keep_dormant.
Qed.

End NormaliserFurther.

(** X13, one run: the date and the limit of a response come out unchanged. *)
Lemma CorrectDiscordHeader_frame_witness :
  let header :=
    Header_Set (Header_Set (Header_Set ∅
      "date" "Fri, 14 Sep 2018 19:04:24 GMT")
      XRateLimitResetAfter "5")
      XRateLimitLimit "10" in
  exists h',
    CorrectDiscordHeader 0 200 header [] = Ok h' /\
    h' !! "X-Ratelimit-Limit" = Some ["10"] /\
    h' !! "Date" = Some ["Fri, 14 Sep 2018 19:04:24 GMT"].
Proof.
  intros header.
  set (h' := Header_Set (Header_Set header XRateLimitResetAfter "5000")
                        XRateLimitReset "1536951869000").
  assert (Hok : CorrectDiscordHeader 0 200 header [] = Ok h')
    by (vm_compute; reflexivity).
  exists h'. split; [exact Hok |]. split.
  - rewrite (CorrectDiscordHeader_frame 0 200 header [] h' "X-Ratelimit-Limit" Hok)
      by (intros H; vm_compute in H; discriminate H).
    reflexivity.
  - rewrite (CorrectDiscordHeader_frame 0 200 header [] h' "Date" Hok)
      by (intros H; vm_compute in H; discriminate H).
    reflexivity.
Defined.

(** X14, one run: a plain 200 with a limit header only. *)
Lemma CorrectDiscordHeader_no_rate_limit_headers_witness :
  let header := Header_Set ∅ XRateLimitLimit "10" in
  CorrectDiscordHeader 0 200 header [] = Ok header.
Proof.
  intros header.
  apply CorrectDiscordHeader_no_rate_limit_headers;
    try reflexivity. intros H; discriminate H.
Defined.

(** X15, one run: the server's reset in seconds, with a [Retry-After] that
    plays no part. *)
Lemma CorrectDiscordHeader_reset_present_witness :
  let header :=
    Header_Set (Header_Set ∅ XRateLimitReset "1536951869") RateLimitRetryAfter "3" in
  exists h',
    CorrectDiscordHeader 0 200 header [] = Ok h' /\
    Header_Get h' XRateLimitReset = "1536951869000".
Proof.
  intros header.
  assert (H1 : Header_Get header XRateLimitReset <> "") by (vm_compute; discriminate).
  assert (H2 : ParseFloat_millis (Header_Get header XRateLimitReset) = Some 1536951869000)
    by (vm_compute; reflexivity).
  assert (H3 : Header_Get header XRateLimitResetAfter = "" \/
               ParseFloat_millis (Header_Get header XRateLimitResetAfter) <> None)
    by (left; vm_compute; reflexivity).
  assert (H4 : 200 = StatusTooManyRequests ->
               json_Unmarshal [] = Unmarshalled (mkRateLimitResponse "" 0 false))
    by (intros H; discriminate H).
  destruct (CorrectDiscordHeader_reset_present 0 200 header [] _ _ H1 H2 H3 H4)
    as (h' & Hok & Hr).
  exists h'. split; [exact Hok |]. rewrite Hr. vm_compute. reflexivity.
Defined.

(** X16, one run: a 429 with a global body, on a fresh pair of buckets. *)
Lemma global_429_updates_global_bucket_witness :
  let header := Header_Set ∅ "date" "Fri, 14 Sep 2018 19:04:24 GMT" in
  let body := sample_body in
  let st := mkStore (newBucket 0) (newBucket 0) in
  exists h',
    CorrectDiscordHeader 0 429 header body = Ok h' /\
    Header_Get h' XRateLimitGlobal = "true" /\
    loc (UpdateBucket_store 7 7 h' st) = loc st /\
    active (gbl (UpdateBucket_store 7 7 h' st)) = false.
Proof.
  intros header body st.
  set (h' := Header_Set (Header_Set (Header_Set header
               XRateLimitGlobal "true")
               XRateLimitResetAfter "2000")
               XRateLimitReset "1536951866000").
  assert (Hok : CorrectDiscordHeader 0 429 header body = Ok h')
    by (vm_compute; reflexivity).
  exists h'. split; [exact Hok |].
  exact (global_429_updates_global_bucket 0 7 7 header body
           (mkRateLimitResponse "You are being rate limited." 2000 true) h' st
           eq_refl eq_refl Hok).
Defined.

(** ** The dispatcher, beyond the acquire step *)

Section DispatcherFurther.
Context `{Ext : Externals}.

Lemma classify_Ok (resp : Response) (header : gmap string (list string))
    (body : list byte) (resp' : Response) (body' : list byte) :
  classify resp header body = Ok (resp', body') ->
  (StatusCode resp = StatusNotModified \/ 200 <= StatusCode resp < 300) /\
  resp' = mkResponse (StatusCode resp) header (Response_Body resp) /\ body' = body.
Proof.
  unfold classify.
  destruct (Z.eqb_spec (StatusCode resp) StatusNotModified) as [E | E];
    destruct (Z.leb_spec 200 (StatusCode resp));
    destruct (Z.ltb_spec (StatusCode resp) 300); cbn [orb andb negb];
    try (destruct body as [| x body0]; [| destruct (Unmarshal_ErrREST _) as [[? ?] |]];
         discriminate);
    intros [= <- <-]; repeat split; auto; lia.
Qed.

(** X17. [Do] returns a response only for a status of 304 or from 200 to
    299: the response is the one the transport answered, with the normalised
    header and the decoded body (the empty body when decoding failed), after
    one request and no regret. *)
Theorem Do_success_status (w : World) (c : Client) (r : Request)
    (resp : Response) (body : list byte) :
  returned (Do w c r) = Ok (resp, body) ->
  (StatusCode resp = StatusNotModified \/ 200 <= StatusCode resp < 300) /\
  (exists answered,
     transport w = Some answered /\
     StatusCode answered = StatusCode resp /\
     body = match decodeResponseBody answered with Ok b => b | _ => [] end /\
     CorrectDiscordHeader (now_Correct w) (StatusCode answered)
       (Response_Header answered) body = Ok (Response_Header resp)) /\
  sends (trace (Do w c r)) = 1%nat /\
  regrets (trace (Do w c r)) = 0%nat.
Proof.
  unfold Do, Do_send, Do_response, sends, regrets.
  repeat break_match; cbn [returned trace]; intros H; try discriminate H;
    apply classify_Ok in H as (Hs & -> & ->);
    (split; [exact Hs |]); (split; [| split; reflexivity]);
    eexists; (split; [reflexivity |]); cbn [StatusCode Response_Header];
    match goal with E : decodeResponseBody _ = _ |- _ => rewrite E end;
    repeat split; assumption.
Qed.

(** X18. The order of what [Do] does. Nothing is sent without a permit: a
    request goes out only after an [Acquire] that returned no error and the
    sleep of the delay it returned. At most one request is sent (no retry),
    at most one regret is made, and a regret and a bucket update never both
    happen. *)
Theorem Do_trace_order (w : World) (c : Client) (r : Request) :
  let tr := trace (Do w c r) in
  (sends tr <= 1)%nat /\
  (regrets tr <= 1)%nat /\
  (length (filter is_update tr) <= 1)%nat /\
  (regrets tr = 1%nat -> filter is_update tr = []) /\
  (sends tr = 1%nat ->
   exists bucket populated m st rest,
     Manager_Bucket (now_newBucket w) (rateLimitMngr c)
       (RateLimitGroup r) (MajorRateLimitID r) (BucketKey r) = Ok (bucket, populated, m) /\
     store_at m bucket = Some st /\
     err (fst (fst (Acquire (time_Now (now_Do w))
                      (acceptableDelay c (now_Do w)) st))) = None /\
     tr = EvAcquire (now_Do w) (acceptableDelay c (now_Do w))
          :: EvSleep (delay (fst (fst (Acquire (time_Now (now_Do w))
                                         (acceptableDelay c (now_Do w)) st))))
          :: EvSend (Method r) (String.append (url c) (Endpoint r))
               match prepareBody r with Ok b => b | _ => None end
          :: rest).
Proof.
  unfold Do, Do_send, Do_response, sends, regrets.
  repeat break_match; cbn [trace]; cbv zeta;
    (split; [first [exact (le_n _) | exact (le_S _ _ (le_n _))] |]);
    (split; [first [exact (le_n _) | exact (le_S _ _ (le_n _))] |]);
    (split; [first [exact (le_n _) | exact (le_S _ _ (le_n _))] |]);
    (split; [intros Hr; first [reflexivity
       | exfalso; revert Hr; change (0%nat = 1%nat -> False); discriminate] |]);
    intros Hs;
    try (exfalso; revert Hs; change (0%nat = 1%nat -> False); discriminate);
    clear Hs;
    match goal with
    | Hst : store_at ?m ?n = Some ?s,
      Hacq : Acquire _ (acceptableDelay (set_manager ?m c) _) ?s = _ |- _ =>
        change (acceptableDelay (set_manager m c) (now_Do w))
          with (acceptableDelay c (now_Do w)) in *;
        exists n; eexists; exists m, s; eexists;
        (split; [reflexivity |]); (split; [exact Hst |]);
        rewrite Hacq; cbn [fst]; (split; [assumption |]); reflexivity
    end.
Qed.

(** X19. The request header is shared between the requests of a client:
    once a request has been built, the client's header holds the
    [Content-Type] of that request, and keeps it after [Do] has returned,
    whatever the outcome. When no request was built the header is unchanged. *)
Theorem Do_reqHeader (w : World) (c : Client) (r : Request) :
  (sends (trace (Do w c r)) = 0%nat ->
   reqHeader (client_after (Do w c r)) = reqHeader c) /\
  (sends (trace (Do w c r)) = 1%nat ->
   reqHeader (client_after (Do w c r))
   = Header_Set (reqHeader c) ContentType (Request_ContentType r)).
Proof.
  unfold Do, Do_send, Do_response, sends.
  repeat break_match; cbn [trace client_after]; split; intros Hs;
    first [ reflexivity
          | exfalso; revert Hs; change (0%nat = 1%nat -> False); discriminate
          | exfalso; revert Hs; change (1%nat = 0%nat -> False); discriminate ].
Qed.

End DispatcherFurther.

Lemma Do_success_status_witness :
  let w := mkWorld 0 0 (Some (mkResponse 200 ∅ (Some []))) 0 0 0 0 in
  returned (Do (Ext := sample_Externals) w sample_client sample_get)
  = Ok (mkResponse 200 ∅ (Some []), []) /\
  sends (trace (Do (Ext := sample_Externals) w sample_client sample_get)) = 1%nat.
Proof.
  intros w.
  assert (H : returned (Do (Ext := sample_Externals) w sample_client sample_get)
              = Ok (mkResponse 200 ∅ (Some []), []))
    by (vm_compute; reflexivity).
  split; [exact H |].
  exact (proj1 (proj2 (proj2
    (Do_success_status (Ext := sample_Externals) w sample_client sample_get _ _ H)))).
Defined.

(** ** The message bindings *)

(** X20. [Valid] accepts exactly the lists of 2 to 100 messages; with more
    than 100 the error is the one of [tooMany], with fewer than 2 the one of
    [tooFew]. *)
Theorem DeleteMessagesParams_Valid_iff (p : DeleteMessagesParams) :
  (DeleteMessagesParams_Valid p = None <-> (2 <= length (Messages p) <= 100)%nat) /\
  (DeleteMessagesParams_Valid p = Some (ErrOther "must be 100 or less messages to delete")
   <-> (100 < length (Messages p))%nat) /\
  (DeleteMessagesParams_Valid p = Some (ErrOther "must be at least two messages to delete")
   <-> (length (Messages p) < 2)%nat).
Proof.
  unfold DeleteMessagesParams_Valid, tooMany, tooFew; cbv zeta.
  destruct (Z.ltb_spec 100 (Z.of_nat (length (Messages p))));
    destruct (Z.ltb_spec (Z.of_nat (length (Messages p))) 2);
    repeat split; intros; try discriminate; try lia; try reflexivity.
Qed.

Lemma AddMessage_Messages (msgID : Z) (p : DeleteMessagesParams) :
  Messages (snd (AddMessage msgID p))
  = (Messages p ++ firstn (100 - length (Messages p)) [msgID])%list.
Proof.
  unfold AddMessage, tooMany.
  destruct (Z.ltb_spec 100 (Z.of_nat (length (Messages p)) + 1)) as [H | H]; cbn [snd Messages].
  - replace (100 - length (Messages p))%nat with 0%nat by lia.
    cbn [firstn]. rewrite app_nil_r. reflexivity.
  - destruct (100 - length (Messages p))%nat as [| k] eqn:E; [lia |].
    cbn [firstn]. rewrite firstn_nil. reflexivity.
Qed.

(** X21. A run of [AddMessage] calls appends the ids in order until the
    list holds 100 of them and refuses the rest: the list never grows
    beyond 100, so [tooMany] never fails on a list built from at most 100
    messages. *)
Theorem AddMessage_all_Messages (ids : list Z) (p : DeleteMessagesParams) :
  Messages (AddMessage_all ids p)
  = (Messages p ++ firstn (100 - length (Messages p)) ids)%list /\
  ((length (Messages p) <= 100)%nat ->
   tooMany (Z.of_nat (length (Messages (AddMessage_all ids p)))) = None).
Proof.
  assert (Heq : forall ids p, Messages (AddMessage_all ids p)
      = (Messages p ++ firstn (100 - length (Messages p)) ids)%list).
  { clear ids p. induction ids as [| i rest IH]; intros p; cbn [AddMessage_all].
    - rewrite firstn_nil, app_nil_r. reflexivity.
    - rewrite IH, AddMessage_Messages.
      destruct (100 - length (Messages p))%nat as [| k] eqn:E.
      + cbn [firstn]. rewrite !app_nil_r. rewrite E.
        cbn [firstn]. rewrite app_nil_r. reflexivity.
      + cbn [firstn]. rewrite firstn_nil, length_app. cbn [length].
        replace (100 - (length (Messages p) + 1))%nat with k by lia.
        rewrite <- app_assoc. reflexivity. }
  split; [apply Heq |].
  intros Hlen. rewrite Heq, length_app, length_firstn. unfold tooMany.
  destruct (Z.ltb_spec 100
    (Z.of_nat (length (Messages p) + Nat.min (100 - length (Messages p)) (length ids))));
    [lia | reflexivity].
Qed.

(** X22. [Validate] accepts a query exactly when at most one of [Around],
    [Before] and [After] is set; [Limit] is never looked at. *)
Theorem GetMessagesParams_Validate_iff (p : GetMessagesParams) :
  GetMessagesParams_Validate p = None <->
  (Around p = 0 /\ Before p = 0) \/ (Around p = 0 /\ After p = 0) \/
  (Before p = 0 /\ After p = 0).
Proof.
  unfold GetMessagesParams_Validate, Snowflake_IsZero; cbv zeta.
  destruct (Z.eqb_spec (Around p) 0); destruct (Z.eqb_spec (Before p) 0);
    destruct (Z.eqb_spec (After p) 0); cbn; split; intros; try discriminate;
    try reflexivity; tauto.
Qed.

Lemma substring_suffix_cons (a : ascii) (s : string) :
  (2 <= String.length s)%nat ->
  String.substring (String.length (String a s) - 2) 2 (String a s)
  = String.substring (String.length s - 2) 2 s.
Proof.
  intros H. cbn [String.length].
  replace (S (String.length s) - 2)%nat with (S (String.length s - 2)) by lia.
  reflexivity.
Qed.

Lemma wrapped_suffix (content : string) :
  (3 <= String.length (String.append content " ||"))%nat /\
  String.substring (String.length (String.append content " ||") - 2) 2
    (String.append content " ||") = "||".
Proof.
  induction content as [| a content [Hlen IH]].
  - split; [exact (le_n 3) | reflexivity].
  - change (String.append (String a content) " ||")
      with (String a (String.append content " ||")).
    split; [cbn [String.length]; lia |].
    rewrite substring_suffix_cons by lia. exact IH.
Qed.

Lemma wrapped_length (content : string) :
  String.length (String.append content " ||") = (String.length content + 3)%nat.
Proof.
  induction content as [| a content IH]; [reflexivity |].
  change (String.append (String a content) " ||")
    with (String a (String.append content " ||")).
  cbn [String.length]. rewrite IH. reflexivity.
Qed.

(** X23. The wrapping [prepare] puts around the content of a spoiler
    message is the one [updateInternals] recognises: on a content that is not
    empty the wrapped text is 6 bytes longer and [updateInternals] sets
    [SpoilerTagContent], whatever the field held. The wrapping is done in
    place, so a second [prepare] wraps the text once more. *)
Theorem spoiler_content_roundtrip (content : string) (before : bool) :
  (0 < String.length content)%nat ->
  updateSpoilerTagContent before (spoilerTagContent true content) = true /\
  String.length (spoilerTagContent true content) = (String.length content + 6)%nat /\
  spoilerTagContent true (spoilerTagContent true content)
  = String.append "|| " (String.append (spoilerTagContent true content) " ||").
Proof.
  intros Hpos.
  assert (Hw : spoilerTagContent true content
               = String "|" (String "|" (String " " (String.append content " ||")))).
  { unfold spoilerTagContent.
    destruct (Z.ltb_spec 0 (Z.of_nat (String.length content))); [reflexivity | lia]. }
  pose proof (wrapped_suffix content) as [Hlen Hsuf].
  pose proof (wrapped_length content) as Hl.
  assert (Hlen6 : String.length (spoilerTagContent true content)
                  = (String.length content + 6)%nat).
  { rewrite Hw. cbn [String.length]. rewrite Hl. lia. }
  split; [| split; [exact Hlen6 |]].
  - unfold updateSpoilerTagContent. rewrite Hw.
    destruct (Nat.leb_spec (String.length "||||")
                (String.length (String "|" (String "|" (String " "
                   (String.append content " ||")))))) as [_ | Hlt];
      [| cbn [String.length] in Hlt; lia].
    cbv zeta.
    rewrite !substring_suffix_cons by (cbn [String.length]; lia).
    rewrite Hsuf. reflexivity.
  - unfold spoilerTagContent at 1.
    destruct (Z.ltb_spec 0 (Z.of_nat (String.length (spoilerTagContent true content))));
      [reflexivity | lia].
Qed.

Lemma spoiler_content_roundtrip_witness :
  updateSpoilerTagContent false (spoilerTagContent true "hello") = true /\
  spoilerTagContent true "hello" = "|| hello ||".
Proof.
  split; [| reflexivity].
  exact (proj1 (spoiler_content_roundtrip "hello" false ltac:(cbn; lia))).
Defined.

Lemma updateAttachments_loop_spec (tags : list bool) (all has : bool) :
  updateAttachments_loop tags all has
  = (all && forallb (fun tag => tag) tags, has || hd false tags).
Proof.
  revert has. induction tags as [| tag rest IH]; intros has.
  - cbn. rewrite andb_true_r, orb_false_r. reflexivity.
  - destruct tag; cbn [updateAttachments_loop negb forallb hd].
    + rewrite IH. cbn [andb orb]. rewrite orb_true_r. reflexivity.
    + cbn [andb]. rewrite andb_false_r, orb_false_r. reflexivity.
Qed.

(** X24. What the attachment loop of [updateInternals] leaves:
    [SpoilerTagAllAttachments] holds exactly when there is an attachment and
    every attachment is tagged; [HasSpoilerImage] is never cleared, and is
    set exactly when the first attachment is tagged, because the loop stops
    at the first attachment without a tag: a tagged attachment behind an
    untagged one is not seen. *)
Theorem updateAttachments_spec (tags : list bool) (hasSpoilerImage : bool) :
  updateAttachments tags hasSpoilerImage
  = (match tags with [] => false | _ :: _ => forallb (fun tag => tag) tags end,
     hasSpoilerImage || hd false tags).
Proof.
  unfold updateAttachments. rewrite updateAttachments_loop_spec.
  destruct tags as [| tag rest]; [reflexivity |].
  replace (0 <? Z.of_nat (length (tag :: rest))) with true
    by (symmetry; apply Z.ltb_lt; cbn [length]; lia).
  reflexivity.
Qed.
